(** * bunanza observability: structured logging utilities and the Hono
      request-observability middleware

    A shallow embedding of [packages/observability] (logger factory, context
    helpers, error serializer, header and query utilities, middleware) and the
    properties of its specification.

    Conventions of the embedding.
    - A JavaScript object is the list of its own properties in enumeration
      order ([obj V]); heaps of objects are [gmap]s from locations.
    - Numbers are IEEE 754 doubles ([float], with the operations of
      [PrimFloat]); a bigint is an integer ([Z]), and [Number_of_bigint] is
      the conversion that [Number(...)] applies to it.
    - Platform functions that the package calls but does not define
      ([String.prototype.toLowerCase], [String(v)], the [URL] constructor) are
      the fields of the class [Platform]; every theorem holds for every
      platform, and [ref_platform] is an instance used to run the definitions.
    - Code that may throw returns a [result]; so do the callbacks of the
      middleware configuration, which are otherwise functions of the types
      that the source declares for them. *)

From Stdlib Require Import ZArith QArith String Ascii List Decimal DecimalString.
From Stdlib Require Import Floats.PrimFloat Floats.SpecFloat Floats.FloatOps.
From stdpp Require Import base option gmap strings list fin_maps.

Local Open Scope string_scope.
Local Open Scope list_scope.
Local Open Scope Z_scope.

(* ===================================================================== *)
(** * Part I: the program                                                 *)
(* ===================================================================== *)

(** ** JavaScript objects as ordered property lists *)

Abbreviation obj V := (list (string * V)) (only parsing).

Module Obj.
Section Props.
Context {V : Type}.

(** [o[k]] restricted to own properties. *)
Fixpoint get (k : string) (o : obj V) : option V :=
  match o with
  | [] => None
  | (k', v) :: r => if decide (k = k') then Some v else get k r
  end.

(** CreateDataProperty: what an object literal, a spread and
    [Object.fromEntries] do for each key. An existing key keeps its place. *)
Fixpoint define (k : string) (v : V) (o : obj V) : obj V :=
  match o with
  | [] => [(k, v)]
  | (k', v') :: r =>
      if decide (k = k') then (k, v) :: r else (k', v') :: define k v r
  end.

(** The assignment [o[k] = v] on an object whose prototype is
    [Object.prototype] and that has no own [__proto__] property: the key
    [__proto__] reaches the inherited accessor, which may replace the
    prototype but never adds an own property. *)
Definition assign (k : string) (v : V) (o : obj V) : obj V :=
  if decide (k = "__proto__") then o else define k v o.

Definition keys (o : obj V) : list string := o.*1.

Definition has (k : string) (o : obj V) : bool := bool_decide (k ∈ keys o).

(** [{...target, ...source}] continued from an already built [target]. *)
Definition spread (target source : obj V) : obj V :=
  foldl (λ acc kv, define kv.1 kv.2 acc) target source.

(** [Object.fromEntries(entries)]. *)
Definition fromEntries (entries : list (string * V)) : obj V :=
  spread [] entries.
End Props.
End Obj.

(** ** JavaScript values *)

(** A property of a general object: its value and whether [for...in]
    enumerates it. *)
Record property (V : Type) : Type :=
  Property { enumerable : bool; pvalue : V }.
Arguments Property {V} _ _.
Arguments enumerable {V} _.
Arguments pvalue {V} _.

(** [VObj e own inh] is an object with own properties [own] and the
    properties [inh] it inherits through its prototype chain (nearest first);
    [e] tells whether [Error.prototype] is on that chain ([instanceof Error]).
    Functions and arrays carry no further properties in this model. *)
#[warnings="-register-all"]
Inductive value : Type :=
| VUndefined
| VNull
| VBool (b : bool)
| VNum (x : float)
| VStr (s : string)
| VFun (name : string)
| VArr (xs : list value)
| VObj (instanceOfError : bool)
       (own : list (string * property value))
       (inherited : list (string * property value)).

(** An object literal [{k1: v1, ...}]. *)
Definition VRec (fields : obj value) : value :=
  VObj false (prod_map id (Property true) <$> fields) [].

(** ToBoolean. *)
Definition truthy (v : value) : bool :=
  match v with
  | VUndefined | VNull => false
  | VBool b => b
  | VNum x => negb (PrimFloat.eqb x 0 || PrimFloat.is_nan x)
  | VStr s => negb (bool_decide (s = ""))
  | VFun _ | VArr _ | VObj _ _ _ => true
  end.

(** [v.k]: own properties first, then the prototype chain; [undefined] when
    the property is missing or [v] is a primitive without it. *)
Definition member (k : string) (v : value) : value :=
  match v with
  | VObj _ own inh =>
      match Obj.get k own with
      | Some p => pvalue p
      | None => from_option pvalue VUndefined (Obj.get k inh)
      end
  | _ => VUndefined
  end.

(** [Number(z)] for a bigint [z], which is also the number that an integer
    literal [z] denotes: the double nearest to [z], ties to even. *)
Definition Number_of_bigint (z : Z) : float :=
  SF2Prim (binary_normalize prec emax z 0 false).

(** ** The platform *)

Class Platform : Type := {
  (** [String.prototype.toLowerCase]. *)
  toLowerCase : string → string;
  (** [String(v)]. *)
  js_String : value → string;
  (** [[...new URL(url).searchParams.entries()]]; [None] when the [URL]
      constructor throws its [TypeError] (the string is not an absolute
      URL). *)
  url_searchParams : string → option (list (string * string));
}.

(** Results of code that may throw. *)
Inductive result (A : Type) : Type :=
| Return (a : A)
| Throw (e : value).
Arguments Return {A} _.
Arguments Throw {A} _.

(** The [TypeError] of the [URL] constructor. *)
Definition invalid_url_error : value :=
  VObj true
    [("message", Property false (VStr "Invalid URL"))]
    [("name", Property false (VStr "TypeError"))].

(** ** constants.ts *)

Module Constants.

Definition DEFAULT_REDACT_PATHS : list string :=
  ["password"; "token"; "secret"; "credentials";
   "apiKey"; "authorization"; "cookie"; "sessionId"].

(** [(process.env.LOG_LEVEL as LogLevel) || 'info']: the variable is a
    string or undefined, and the empty string is falsy. *)
Definition DEFAULT_LEVEL (LOG_LEVEL : option string) : string :=
  match LOG_LEVEL with
  | Some s => if decide (s = "") then "info" else s
  | None => "info"
  end.

Definition DEFAULT_MESSAGE_KEY : string := "msg".
Definition DEFAULT_ERROR_KEY : string := "error".
End Constants.

(** ** utils/errors.ts *)

Module Errors.
Section WithPlatform.
Context `{Platform}.

(** [typeof v === 'object']. *)
Definition typeof_object (v : value) : bool :=
  match v with
  | VNull | VArr _ | VObj _ _ _ => true
  | _ => false
  end.

(** ['message' in v] for an object [v]. *)
Definition has_message (v : value) : bool :=
  match v with
  | VObj _ own inh => Obj.has "message" own || Obj.has "message" inh
  | _ => false
  end.

Definition instanceof_Error (v : value) : bool :=
  match v with
  | VObj e _ _ => e
  | _ => false
  end.

Definition is_null (v : value) : bool :=
  match v with VNull => true | _ => false end.

Definition isError (err : value) : bool :=
  instanceof_Error err
  || (typeof_object err && negb (is_null err) && has_message err).

(** The keys [for (const key in errorObj)] visits: the enumerable own
    properties, then the enumerable inherited ones that no own property
    shadows. *)
Definition for_in_keys (v : value) : list string :=
  match v with
  | VObj _ own inh =>
      Obj.keys (filter (λ kp, enumerable kp.2 = true) own)
      ++ Obj.keys (filter (λ kp, enumerable kp.2 = true
                                  ∧ Obj.has kp.1 own = false) inh)
  | _ => []
  end.

(** [Object.prototype.hasOwnProperty.call(v, key)]. *)
Definition hasOwnProperty (v : value) (key : string) : bool :=
  match v with
  | VObj _ own _ => Obj.has key own
  | _ => false
  end.

(** The object that the serializer builds and returns: its own properties
    in order, all of them enumerable data properties, and its prototype,
    [None] for [Object.prototype] and [Some p] once an assignment to
    [__proto__] has put [p] in its place. *)
Record SerializedError : Type :=
  Serialized { fields : obj value; prototype : option value }.

(** What the setter of [__proto__] accepts as a prototype: an object or
    [null]. *)
Definition is_prototype (v : value) : bool :=
  match v with
  | VNull | VFun _ | VArr _ | VObj _ _ _ => true
  | _ => false
  end.

(** The assignment [serialized[key] = v]. Every key but [__proto__] becomes
    an own property. The key [__proto__] reaches the accessor that the
    object inherits from [Object.prototype]: it adds no own property, and it
    replaces the prototype when [v] is an object or [null]. *)
Definition set_field (key : string) (v : value) (serialized : SerializedError)
  : SerializedError :=
  Serialized (Obj.assign key v (fields serialized))
    (if decide (key = "__proto__")
     then (if is_prototype v then Some v else prototype serialized)
     else prototype serialized).

(** The body of the [for...in] loop. *)
Definition copy_step (err : value) (serialized : SerializedError)
    (key : string) : SerializedError :=
  if hasOwnProperty err key
     && negb (bool_decide (key ∈ ["name"; "message"; "stack"]))
  then set_field key (member key err) serialized
  else serialized.

Definition errorSerializer (v : value) : SerializedError :=
  if negb (isError v) then Serialized [("error", VStr (js_String v))] None
  else
    let err := v in
    let serialized :=
      Serialized [("type", member "name" err); ("message", member "message" err)]
                 None in
    let serialized :=
      if truthy (member "stack" err)
      then set_field "stack" (member "stack" err) serialized
      else serialized in
    foldl (copy_step err) serialized (for_in_keys err).

(** The returned object as a value. With the prototype of an object
    literal it is the record of its fields; with a prototype [p] it
    inherits the properties of [p] and of the prototype chain of [p], and
    it is an instance of [Error] when [p] is one. *)
Definition serialized_value (serialized : SerializedError) : value :=
  match prototype serialized with
  | None => VRec (fields serialized)
  | Some p =>
      VObj (instanceof_Error p)
        (prod_map id (Property true) <$> fields serialized)
        (match p with VObj _ own inh => own ++ inh | _ => [] end)
  end.
End WithPlatform.
End Errors.

(** ** middleware/hono/utils.ts *)

Module HonoUtils.
Section WithPlatform.
Context `{Platform}.

(** [formatDuration(startTime)] when [process.hrtime.bigint()] reads
    [endTime]: the difference of the two bigints, converted to a number and
    divided by [1_000_000]. *)
Definition formatDuration (startTime endTime : Z) : float :=
  let duration := endTime - startTime in
  PrimFloat.div (Number_of_bigint duration) 1000000%float.

(** [getHeaders(headers, redactHeaders)] as a function of
    [Object.entries(headers)]. *)
Definition header_step (redactHeaders : list string)
    (sanitizedHeaders : obj string) (kv : string * string) : obj string :=
  let lowerKey := toLowerCase kv.1 in
  if bool_decide (lowerKey ∈ redactHeaders)
  then Obj.assign lowerKey "[REDACTED]" sanitizedHeaders
  else Obj.assign lowerKey kv.2 sanitizedHeaders.

Definition getHeaders (headers : obj string) (redactHeaders : list string)
  : obj string :=
  foldl (header_step redactHeaders) [] headers.

(** The same function on references: [headers] is the location of the
    argument, the object [sanitizedHeaders] is allocated, written key by
    key and returned. [None] only for a dangling reference. *)
Definition getHeaders_heap (headers : positive) (redactHeaders : list string)
    (h : gmap positive (obj string))
  : option (positive * gmap positive (obj string)) :=
  entries ← h !! headers;
  let sanitizedHeaders := fresh (dom h) in
  Some (sanitizedHeaders,
        foldl (λ h' kv,
                 let lowerKey := toLowerCase kv.1 in
                 if bool_decide (lowerKey ∈ redactHeaders)
                 then alter (Obj.assign lowerKey "[REDACTED]")
                            sanitizedHeaders h'
                 else alter (Obj.assign lowerKey kv.2) sanitizedHeaders h')
              (<[sanitizedHeaders := []]> h) entries).

(** [getQueryParams(url)]. *)
Definition getQueryParams (url : string) : result (obj string) :=
  match url_searchParams url with
  | None => Throw invalid_url_error
  | Some entries =>
      Return (foldl (λ params kv, Obj.assign kv.1 kv.2 params) [] entries)
  end.
End WithPlatform.
End HonoUtils.

(** ** config/defaults.ts *)

Module Defaults.
(** [defaultOptions], given the value of the environment variable
    [LOG_LEVEL] when the module is loaded. *)
Definition defaultOptions (LOG_LEVEL : option string) : obj value :=
  [("level", VStr (Constants.DEFAULT_LEVEL LOG_LEVEL));
   ("timestamp", VBool true);
   ("formatters", VRec [("level", VFun "level")]);
   ("redact", VRec [("paths", VArr (VStr <$> Constants.DEFAULT_REDACT_PATHS));
                    ("remove", VBool true)]);
   ("serializers", VRec [("error", VFun "errorSerializer")]);
   ("base", VNull);
   ("messageKey", VStr "msg");
   ("errorKey", VStr "error")].
End Defaults.

(** ** The logging backend *)

Module Backend.
(** A logger instance: the options it was built from and the bindings it
    attaches to every entry. *)
Record instance : Type :=
  Instance_ { options : obj value; bindings : obj value }.


(** Modelled from the spec: the backend constructor [pino(options)],
    which is outside the package; it returns a new logger without
    bindings. *)
Definition pino (opts : obj value) (h : gmap positive instance)
  : positive * gmap positive instance :=
  let l := fresh (dom h) in
  (l, <[l := Instance_ opts []]> h).

(** Modelled from the spec: the backend's [logger.child(bindings)], which
    is outside the package; it derives a new logger whose bindings are
    those of the parent merged with the given ones, later keys overriding
    earlier ones, and leaves the parent as it is. [None] only for a
    dangling reference. *)
Definition child (l : positive) (ctx : obj value)
    (h : gmap positive instance)
  : option (positive * gmap positive instance) :=
  parent ← h !! l;
  let c := fresh (dom h) in
  Some (c, <[c := Instance_ (options parent)
                    (Obj.spread (bindings parent) ctx)]> h).





End Backend.

(** ** utils/context.ts *)

Module ContextUtils.
Definition createContextLogger (logger : positive) (context : obj value)
    (h : gmap positive Backend.instance)
  : option (positive * gmap positive Backend.instance) :=
  Backend.child logger context h.

(** [generateRequestId()] when [Date.now()] reads [now] and
    [Math.random().toString(36)] reads [random36]. *)
Definition generateRequestId (now : N) (random36 : string) : string :=
  "req_" +:+ NilZero.string_of_uint (N.to_uint now)
  +:+ "_" +:+ String.substring 2 13 random36.

(** [requestId || generateRequestId()]: an absent or empty id is
    generated. *)
Definition withRequestContext (logger : positive) (requestId : option string)
    (now : N) (random36 : string) (h : gmap positive Backend.instance)
  : option (positive * gmap positive Backend.instance) :=
  let generatedRequestId :=
    match requestId with
    | Some id => if decide (id = "") then generateRequestId now random36
                 else id
    | None => generateRequestId now random36
    end in
  createContextLogger logger [("requestId", VStr generatedRequestId)] h.

Definition withUserContext (logger : positive) (userId : string)
    (h : gmap positive Backend.instance) :=
  createContextLogger logger [("userId", VStr userId)] h.

Definition withTraceContext (logger : positive) (traceId : string)
    (h : gmap positive Backend.instance) :=
  createContextLogger logger [("traceId", VStr traceId)] h.
End ContextUtils.

(** ** logger.ts *)

Module Logger.
(** [{...defaultOptions, ...options}]. *)
Definition mergedOptions (LOG_LEVEL : option string) (opts : obj value)
  : obj value :=
  Obj.spread (Obj.spread [] (Defaults.defaultOptions LOG_LEVEL)) opts.

Definition createLogger (LOG_LEVEL : option string) (opts : obj value)
    (h : gmap positive Backend.instance)
  : positive * gmap positive Backend.instance :=
  Backend.pino (mergedOptions LOG_LEVEL opts) h.

End Logger.

(** ** middleware/hono/types.ts and config.ts *)

Module HonoConfig.
(** A key of an options object: missing, present with the value
    [undefined], or given. *)
Inductive field (A : Type) : Type :=
| Absent
| Undefined
| Given (a : A).
Arguments Absent {A}.
Arguments Undefined {A}.
Arguments Given {A} _.

(** [a ?? b]. *)
Definition nullish {A} (a : field A) (b : A) : A :=
  match a with Given x => x | _ => b end.

(** One key of [{...defaults, ...options}]. *)
Definition spread_field {A} (default option : field A) : field A :=
  match option with Absent => default | _ => option end.

(** [boolean | string[]]. *)
Inductive include_headers : Type :=
| IncludeFlag (b : bool)
| IncludeList (names : list string).

(** Modelled from the spec: the request context of the HTTP framework,
    which is outside the package; it exposes the request (method, URL,
    path, headers), a mutable response status and the slot that holds the
    logger. *)
Record request : Type :=
  Request { method : string; url : string; path : string;
            header : obj string }.

Record context : Type :=
  Context_ { req : request; res_status : option Z;
             var_logger : option positive }.

(** [c.status(code)] and [c.set('logger', l)]. *)
Definition set_status (code : Z) (c : context) : context :=
  Context_ (req c) (Some code) (var_logger c).

Definition set_logger (l : positive) (c : context) : context :=
  Context_ (req c) (res_status c) (Some l).

Record HonoLoggerOptions : Type :=
  Options {
    logger : field positive;
    level : field string;
    includeHeaders : field include_headers;
    redactHeaders : field (list string);
    includeQueryParams : field bool;
    slowRequestThreshold : field float;
    getUserContext : field (context → result (obj value));
    formatRequest : field (request → context → result (obj value));
    formatResponse : field (option Z → context → result (obj value));
    formatError : field (value → context → result (obj value));
  }.

(** The options object [{}]. *)
Definition no_options : HonoLoggerOptions :=
  Options Absent Absent Absent Absent Absent Absent
          Absent Absent Absent Absent.

Definition defaultOptions : HonoLoggerOptions :=
  Options Absent Absent
    (Given (IncludeFlag false))
    (Given ["authorization"; "cookie"; "set-cookie";
            "x-api-key"; "x-auth-token"])
    (Given false)
    (Given 1000%float)
    Absent Absent Absent Absent.

(** [{...a, ...b}]. *)
Definition spread (a b : HonoLoggerOptions) : HonoLoggerOptions :=
  Options
    (spread_field (logger a) (logger b))
    (spread_field (level a) (level b))
    (spread_field (includeHeaders a) (includeHeaders b))
    (spread_field (redactHeaders a) (redactHeaders b))
    (spread_field (includeQueryParams a) (includeQueryParams b))
    (spread_field (slowRequestThreshold a) (slowRequestThreshold b))
    (spread_field (getUserContext a) (getUserContext b))
    (spread_field (formatRequest a) (formatRequest b))
    (spread_field (formatResponse a) (formatResponse b))
    (spread_field (formatError a) (formatError b)).
End HonoConfig.

(** ** middleware/hono/index.ts *)

Module Middleware.
Import HonoConfig.

(** What the handler reads from the process on a request: [Date.now()],
    [Math.random().toString(36)], [process.hrtime.bigint()] at its start,
    and [process.hrtime.bigint()] in the [catch] block when that block is
    entered after the [try] block has read the clock itself. *)
Record environment : Type :=
  Environment { now : N; random36 : string; hrtime : Z; hrtime_catch : Z }.

(** How the downstream continuation settles: normally or by throwing,
    with the response status it leaves and the reading of
    [process.hrtime.bigint()] afterwards. *)
Record settlement : Type :=
  Settlement { outcome : result unit; status_after : option Z;
               hrtime_after : Z }.

(** The request context once the continuation has settled. *)
Definition context_after (c : context) (s : settlement) : context :=
  Context_ (req c) (status_after s) (var_logger c).

(** What a run of the handler does, in order: calls of a method of the
    request logger, and the call of [next()]. *)
Inductive event : Type :=
| Logged (logger : positive) (level : string)
         (data : obj value) (message : string)
| Downstream.

Record run : Type :=
  Run { trace : list event;
        settled : option settlement;
        returned : result unit;
        final_context : context;
        final_heap : gmap positive Backend.instance }.

Definition status_value (c : context) : value :=
  match res_status c with
  | Some code => VNum (Number_of_bigint code)
  | None => VUndefined
  end.

(** [!c.res.status || c.res.status < 400]. *)
Definition status_below_400 (c : context) : bool :=
  match res_status c with
  | Some code => (code =? 0) || (code <? 400)
  | None => true
  end.

Definition include_truthy (f : field include_headers) : bool :=
  match f with
  | Given (IncludeFlag b) => b
  | Given (IncludeList _) => true
  | _ => false
  end.

Definition flag_truthy (f : field bool) : bool :=
  match f with Given b => b | _ => false end.

(** [config.slowRequestThreshold ?? defaultOptions.slowRequestThreshold
    ?? 1000]. *)
Definition threshold_of (config : HonoLoggerOptions) : float :=
  nullish (slowRequestThreshold config)
    (nullish (slowRequestThreshold defaultOptions) 1000%float).

(** A callback of the configuration, called when it is configured;
    otherwise the value computed by the handler. *)
Definition formatted {A} (callback : field A)
    (call : A → result (obj value)) (computed : obj value)
  : result (obj value) :=
  match callback with
  | Given f => call f
  | _ => Return computed
  end.

Section WithPlatform.
Context `{Platform}.

(** The request log context, lines 17 to 62: it throws when the query
    parameters are wanted and the URL does not parse, and when one of the
    callbacks [getUserContext] and [formatRequest] throws. *)
Definition request_payload (config : HonoLoggerOptions) (c : context)
  : result (obj value) :=
  let logContext : obj value :=
    [("method", VStr (method (req c)));
     ("url", VStr (url (req c)));
     ("path", VStr (path (req c)))] in
  let logContext :=
    if include_truthy (includeHeaders config) then
      let allowedHeaders :=
        match includeHeaders config with
        | Given (IncludeList names) => Some names
        | _ => None
        end in
      let headers :=
        HonoUtils.getHeaders
          (Obj.fromEntries
             ((λ kv, (toLowerCase kv.1, kv.2)) <$> header (req c)))
          (nullish (redactHeaders config) []) in
      Obj.assign "headers"
        (VRec (prod_map id VStr <$>
               match allowedHeaders with
               | Some names =>
                   Obj.fromEntries (filter (λ kv, kv.1 ∈ names) headers)
               | None => headers
               end))
        logContext
    else logContext in
  match (if flag_truthy (includeQueryParams config)
         then match HonoUtils.getQueryParams (url (req c)) with
              | Return params =>
                  Return (Obj.assign "query"
                            (VRec (prod_map id VStr <$> params)) logContext)
              | Throw e => Throw e
              end
         else Return logContext) with
  | Throw e => Throw e
  | Return logContext =>
      match (match getUserContext config with
             | Given f =>
                 match f c with
                 | Return userContext =>
                     Return (foldl (λ acc kv, Obj.assign kv.1 kv.2 acc)
                               logContext userContext)
                 | Throw e => Throw e
                 end
             | _ => Return logContext
             end) with
      | Throw e => Throw e
      | Return logContext =>
          formatted (formatRequest config) (λ f, f (req c) c) logContext
      end
  end.

(** The [try] block after [next()] has returned, lines 75 to 98, on the
    context [c] that the continuation has left and with the clock reading
    [endTime]: the entries it logs and how it ends. A response formatter
    that throws ends it after the slow-request warning and before the
    completion entry. *)
Definition on_success (config : HonoLoggerOptions) (requestLogger : positive)
    (startTime endTime : Z) (c : context) : list event * result unit :=
  let duration := HonoUtils.formatDuration startTime endTime in
  let threshold := threshold_of config in
  let slow :=
    if PrimFloat.ltb threshold duration
    then [Logged requestLogger "warn"
            [("duration", VNum duration); ("threshold", VNum threshold)]
            "Slow request detected"]
    else [] in
  let responseContext :=
    [("status", status_value c); ("duration", VNum duration)] in
  match formatted (formatResponse config) (λ f, f (res_status c) c)
          responseContext with
  | Return finalResponseContext =>
      (slow ++ [Logged requestLogger "info" finalResponseContext
                  "Request completed"],
       Return tt)
  | Throw e => (slow, Throw e)
  end.

(** The status that the [catch] block leaves: 500 unless the response
    has a status of 400 or more. *)
Definition error_status (c : context) : context :=
  if status_below_400 c then set_status 500 c else c.

(** The [catch] block, lines 100 to 127, entered with [error] on the
    context [c] and with the clock reading [endTime]: the context it
    leaves, the entry it logs and the error it throws. An error formatter
    that throws ends it before the entry is logged, with the formatter's
    error in place of [error]. *)
Definition on_failure (config : HonoLoggerOptions) (requestLogger : positive)
    (startTime endTime : Z) (c : context) (error : value)
  : context * list event * value :=
  let duration := HonoUtils.formatDuration startTime endTime in
  let c := error_status c in
  let errorContext :=
    [("err", error); ("duration", VNum duration);
     ("status", status_value c);
     ("method", VStr (method (req c)));
     ("path", VStr (path (req c)))] in
  match formatted (formatError config) (λ f, f error c) errorContext with
  | Return finalErrorContext =>
      (c, [Logged requestLogger "error" finalErrorContext "Request failed"],
       error)
  | Throw e => (c, [], e)
  end.

(** The handler [async (c, next) => ...] of a middleware with
    configuration [config] and logger [logger]. [None] only when [logger]
    is a dangling reference. *)
Definition handler (config : HonoLoggerOptions) (logger : positive)
    (env : environment) (c : context) (next : context → settlement)
    (h : gmap positive Backend.instance) : option run :=
  '(requestLogger, h) ←
    ContextUtils.withRequestContext logger None (now env) (random36 env) h;
  let startTime := hrtime env in
  Some
    match request_payload config c with
    | Throw e => Run [] None (Throw e) c h
    | Return requestContext =>
        let incoming :=
          Logged requestLogger "info" requestContext "Incoming request" in
        let c := set_logger requestLogger c in
        let s := next c in
        let c := context_after c s in
        match outcome s with
        | Return _ =>
            let completed :=
              on_success config requestLogger startTime (hrtime_after s) c in
            match completed.2 with
            | Return _ =>
                Run (incoming :: Downstream :: completed.1)
                    (Some s) (Return tt) c h
            | Throw error =>
                let failed :=
                  on_failure config requestLogger startTime
                    (hrtime_catch env) c error in
                Run (incoming :: Downstream :: completed.1 ++ failed.1.2)
                    (Some s) (Throw failed.2) failed.1.1 h
            end
        | Throw error =>
            let failed :=
              on_failure config requestLogger startTime (hrtime_after s)
                c error in
            Run (incoming :: Downstream :: failed.1.2)
                (Some s) (Throw failed.2) failed.1.1 h
        end
    end.

(** [observabilityMiddleware(options)]: the merged configuration, the
    logger (the given one, or one created at the configured level) and
    the heap after the call. *)
Definition observabilityMiddleware (LOG_LEVEL : option string)
    (options : HonoLoggerOptions) (h : gmap positive Backend.instance)
  : HonoLoggerOptions * positive * gmap positive Backend.instance :=
  let config := spread defaultOptions options in
  match logger options with
  | Given l => (config, l, h)
  | _ =>
      let '(l, h) :=
        Logger.createLogger LOG_LEVEL
          [("level", match level config with
                     | Given lvl => VStr lvl
                     | _ => VUndefined
                     end)] h in
      (config, l, h)
  end.
End WithPlatform.
End Middleware.

(** ** A reference platform

    An instance of [Platform] for running the definitions on concrete
    inputs: ASCII case folding, [String] on primitives and plain objects
    (of a number that is not an integer it prints the integer part only),
    and a URL reader that demands a scheme and splits the query at [&] and
    [=] (no percent-decoding). *)

Module Ref.
Definition lower_ascii (c : ascii) : ascii :=
  let n := N_of_ascii c in
  if ((65 <=? n) && (n <=? 90))%N then ascii_of_N (n + 32) else c.

Fixpoint lower_string (s : string) : string :=
  match s with
  | EmptyString => EmptyString
  | String c r => String (lower_ascii c) (lower_string r)
  end.

Definition string_of_Z (z : Z) : string :=
  NilZero.string_of_int (Z.to_int z).

(** The integer part of a finite double. *)
Definition integer_part (x : float) : option Z :=
  match Prim2SF x with
  | S754_zero _ => Some 0
  | S754_finite negative m e =>
      Some ((if negative then -1 else 1)
            * (if 0 <=? e then Zpos m * 2 ^ e else Zpos m / 2 ^ (- e)))
  | _ => None
  end.

Definition string_of_number (x : float) : string :=
  match integer_part x with
  | Some z => string_of_Z z
  | None =>
      if PrimFloat.is_nan x then "NaN"
      else if PrimFloat.ltb x 0 then "-Infinity" else "Infinity"
  end.

Definition String_ (v : value) : string :=
  match v with
  | VUndefined => "undefined"
  | VNull => "null"
  | VBool true => "true"
  | VBool false => "false"
  | VNum x => string_of_number x
  | VStr s => s
  | VFun name => "function " +:+ name +:+ "() { [native code] }"
  | VArr _ => ""
  | VObj true _ _ as e =>
      match member "name" e, member "message" e with
      | VStr n, VStr m => n +:+ ": " +:+ m
      | _, _ => "Error"
      end
  | VObj false _ _ => "[object Object]"
  end.

(** [break c s]: the part of [s] before the first [c], and the part after
    it when there is one. *)
Fixpoint break (c : ascii) (s : string) : string * option string :=
  match s with
  | EmptyString => (EmptyString, None)
  | String a r =>
      if Ascii.eqb a c then (EmptyString, Some r)
      else let '(x, y) := break c r in (String a x, y)
  end.

Fixpoint split (c : ascii) (s : string) : list string :=
  match s with
  | EmptyString => [EmptyString]
  | String a r =>
      if Ascii.eqb a c then EmptyString :: split c r
      else match split c r with
           | x :: xs => String a x :: xs
           | [] => [String a EmptyString]
           end
  end.

Definition is_alpha (c : ascii) : bool :=
  let n := N_of_ascii c in
  (((65 <=? n) && (n <=? 90)) || ((97 <=? n) && (n <=? 122)))%N.

Definition is_scheme_char (c : ascii) : bool :=
  let n := N_of_ascii c in
  (is_alpha c || ((48 <=? n) && (n <=? 57))
   || (n =? 43) || (n =? 45) || (n =? 46))%N.

Definition valid_scheme (s : string) : bool :=
  match s with
  | EmptyString => false
  | String c r =>
      is_alpha c && forallb is_scheme_char (list_ascii_of_string r)
  end.

Definition query_pair (piece : string) : string * string :=
  let '(k, v) := break "=" piece in (k, default EmptyString v).

Definition searchParams (url : string) : option (list (string * string)) :=
  match break ":" url with
  | (scheme, Some rest) =>
      if valid_scheme scheme then
        match (break "?" (break "#" rest).1).2 with
        | Some query =>
            Some (query_pair <$>
                  filter (λ piece, piece ≠ EmptyString) (split "&" query))
        | None => Some []
        end
      else None
  | (_, None) => None
  end.
End Ref.

Definition ref_platform : Platform :=
  {| toLowerCase := Ref.lower_string;
     js_String := Ref.String_;
     url_searchParams := Ref.searchParams |}.

(** ** Sample inputs *)

Module Sample.
Import HonoConfig Middleware.

(** An [Error] instance with a custom code, as in the package's tests. *)
Definition test_error : value :=
  VObj true
    [("stack", Property false (VStr "Error: test error at <anonymous>"));
     ("message", Property false (VStr "test error"));
     ("code", Property true (VStr "CUSTOM_ERROR"))]
    [("name", Property false (VStr "Error"));
     ("message", Property false (VStr ""))].

(** [GET http://localhost/users?x=1] with an authorization header. *)
Definition get_users : context :=
  Context_
    (Request "GET" "http://localhost/users?x=1" "/users"
       [("Authorization", "Bearer x"); ("X-Test", "value")])
    None None.

(** The same request as a context whose URL is the bare path. *)
Definition get_users_bare : context :=
  Context_ (Request "GET" "/users?x=1" "/users" []) None None.

(** The process on the request: the clock reads one second at the start
    of the handler, and 12 ms more in a [catch] block that follows a
    failed [try] block. *)
Definition env : environment :=
  Environment 1700000000000 "0.4fzyo82mvyr" 1000000000 1012000000.

(** A handler that answers 200 after 5 ms, one that answers after 10 ms,
    and one that throws [test_error] after 2 ms. *)
Definition ok_5ms (c : context) : settlement :=
  Settlement (Return tt) (Some 200) 1005000000.

Definition ok_10ms (c : context) : settlement :=
  Settlement (Return tt) (Some 200) 1010000000.

Definition fails_2ms (c : context) : settlement :=
  Settlement (Throw test_error) None 1002000000.

(** Options at level [info]: the defaults, [includeQueryParams: true],
    [slowRequestThreshold: 1], and [includeHeaders: true] with
    [redactHeaders: ['authorization']]. *)
Definition at_info : HonoLoggerOptions :=
  Options Absent (Given "info") Absent Absent Absent Absent
          Absent Absent Absent Absent.

Definition with_query : HonoLoggerOptions :=
  Options Absent (Given "info") Absent Absent (Given true) Absent
          Absent Absent Absent Absent.

Definition with_threshold_1 : HonoLoggerOptions :=
  Options Absent (Given "info") Absent Absent Absent (Given 1%float)
          Absent Absent Absent Absent.

Definition with_headers : HonoLoggerOptions :=
  Options Absent (Given "info") (Given (IncludeFlag true))
          (Given ["authorization"]) Absent Absent
          Absent Absent Absent Absent.

(** Options with callbacks that return: a user context and a response
    formatter, with [includeQueryParams: true]. *)
Definition with_formatters : HonoLoggerOptions :=
  Options Absent (Given "info") Absent Absent (Given true) Absent
          (Given (λ _, Return [("tenant", VStr "acme")])) Absent
          (Given (λ status _,
                    Return [("code", match status with
                                     | Some code => VNum (Number_of_bigint code)
                                     | None => VUndefined
                                     end)]))
          Absent.

(** The error of a callback that fails: [new Error('callback failed')]. *)
Definition callback_error : value :=
  VObj true
    [("stack", Property false (VStr "Error: callback failed at <anonymous>"));
     ("message", Property false (VStr "callback failed"))]
    [("name", Property false (VStr "Error"));
     ("message", Property false (VStr ""))].

(** Options at level [info] in which one callback throws
    [callback_error]: [getUserContext]; [formatResponse], with
    [slowRequestThreshold: 1]; [formatError]. *)
Definition with_failing_user_context : HonoLoggerOptions :=
  Options Absent (Given "info") Absent Absent Absent Absent
          (Given (λ _, Throw callback_error)) Absent Absent Absent.

Definition with_failing_response_formatter : HonoLoggerOptions :=
  Options Absent (Given "info") Absent Absent Absent (Given 1%float)
          Absent Absent (Given (λ _ _, Throw callback_error)) Absent.

Definition with_failing_error_formatter : HonoLoggerOptions :=
  Options Absent (Given "info") Absent Absent Absent Absent
          Absent Absent Absent (Given (λ _ _, Throw callback_error)).

(** The middleware built from [options] in an empty heap and without
    [LOG_LEVEL], run on one request. *)
Definition middleware (options : HonoLoggerOptions)
  : HonoLoggerOptions * positive * gmap positive Backend.instance :=
  observabilityMiddleware None options ∅.

Definition serve (options : HonoLoggerOptions) (c : context)
    (next : context → settlement) : option run :=
  handler (H := ref_platform)
    (middleware options).1.1 (middleware options).1.2
    env c next (middleware options).2.
End Sample.

(** ** Statements of the specification *)

Module Spec.
Section WithPlatform.
Context `{Platform}.

(** The entry of [headers] that decides the value stored under the
    lower-cased key [k]: the last one whose key folds to [k]. *)
Definition deciding_entry (k : string) (headers : obj string)
  : option (string * string) :=
  last (filter (λ kv, toLowerCase kv.1 = k) headers).

(** Redaction as the specification words it: the keys of the result are
    the lower-cased keys of [headers]; a key whose lower-cased form is on
    the deny-list maps to the marker, every other key to its own value. *)
Definition redaction (headers : obj string) (denylist : list string)
    (result : obj string) : Prop :=
  (∀ k, k ∈ Obj.keys result ↔ k ∈ toLowerCase <$> Obj.keys headers)
  ∧ (∀ k v, (k, v) ∈ headers →
       Obj.get (toLowerCase k) result
       = Some (if bool_decide (toLowerCase k ∈ denylist)
               then "[REDACTED]" else v)).

(** [k] is an own enumerable property of [v]. *)
Definition own_enumerable (v : value) (k : string) : bool :=
  match v with
  | VObj _ own _ =>
      bool_decide (k ∈ Obj.keys (filter (λ kp, enumerable kp.2 = true) own))
  | _ => false
  end.

(** The keys that the [for...in] loop of the serializer copies. *)
Definition copied (err : value) (k : string) : bool :=
  bool_decide (k ∈ Errors.for_in_keys err)
  && Errors.hasOwnProperty err k
  && negb (bool_decide (k ∈ ["name"; "message"; "stack"]))
  && negb (bool_decide (k = "__proto__")).


(** The value that the entries of a query string give to [k]: that of
    the last occurrence. *)
Definition last_value (k : string) (entries : list (string * string))
  : option string :=
  snd <$> last (filter (λ kv, kv.1 = k) entries).

(** The flat mapping of a query string, last occurrence winning. *)
Definition query_mapping (entries : list (string * string))
    (params : obj string) : Prop :=
  ∀ k, Obj.get k params = last_value k entries.
End WithPlatform.

(** The events of a trace that are log calls of level [lvl] with
    message [msg]. *)
Definition is_entry (lvl msg : string) (ev : Middleware.event) : bool :=
  match ev with
  | Middleware.Logged _ l _ m => bool_decide (l = lvl) && bool_decide (m = msg)
  | Middleware.Downstream => false
  end.

Definition count (lvl msg : string) (t : list Middleware.event) : nat :=
  length (filter (λ ev, is_entry lvl msg ev = true) t).

Definition has_level (lvl : string) (ev : Middleware.event) : bool :=
  match ev with
  | Middleware.Logged _ l _ _ => bool_decide (l = lvl)
  | Middleware.Downstream => false
  end.

(** The request lifecycle as the specification words it: the downstream
    handler runs; before it exactly one [info] entry "Incoming request" is
    logged; after it exactly one terminal entry, "Request completed" at
    [info] when the handler returned and "Request failed" at [error] when
    it threw, never both. *)
Definition lifecycle (r : Middleware.run) : Prop :=
  ∃ before after s,
    Middleware.trace r = before ++ Middleware.Downstream :: after
    ∧ Middleware.settled r = Some s
    ∧ count "info" "Incoming request" before = 1%nat
    ∧ count "info" "Request completed" before = 0%nat
    ∧ count "error" "Request failed" before = 0%nat
    ∧ count "info" "Incoming request" after = 0%nat
    ∧ match Middleware.outcome s with
      | Return _ => count "info" "Request completed" after = 1%nat
                    ∧ count "error" "Request failed" after = 0%nat
      | Throw _ => count "error" "Request failed" after = 1%nat
                   ∧ count "info" "Request completed" after = 0%nat
      end.

(** A configured callback returns normally when it is called as [call]
    calls it. *)
Definition callback_returns {A} (callback : HonoConfig.field A)
    (call : A → result (obj value)) : Prop :=
  ∀ f, callback = HonoConfig.Given f → ∃ o, call f = Return o.

(** The milliseconds between two readings of the nanosecond clock, as a
    number: the double nearest to the difference, divided by a million. *)
Definition elapsed_ms (startTime endTime : Z) : float :=
  PrimFloat.div (Number_of_bigint (endTime - startTime)) 1000000%float.

(** The failure path as the specification words it: when the downstream
    continuation throws, exactly one [error] entry is logged and the error
    that reaches the caller is the one that was raised. *)
Definition failure (r : Middleware.run) : Prop :=
  ∀ s e, Middleware.settled r = Some s → Middleware.outcome s = Throw e →
    Middleware.returned r = Throw e
    ∧ length (filter (λ ev, has_level "error" ev = true) (Middleware.trace r))
      = 1%nat.

(** The slow-request warning as the specification words it, for a handler
    that started at [startTime] with the threshold [threshold]: when the
    continuation returns, the completion entry is logged, and next to it
    one [warn] entry when the elapsed milliseconds exceed the threshold and
    none when they do not. *)
Definition slow_request (threshold : float) (startTime : Z)
    (r : Middleware.run) : Prop :=
  ∀ s u, Middleware.settled r = Some s → Middleware.outcome s = Return u →
    count "info" "Request completed" (Middleware.trace r) = 1%nat
    ∧ length (filter (λ ev, has_level "warn" ev = true) (Middleware.trace r))
      = (if PrimFloat.ltb threshold
              (elapsed_ms startTime (Middleware.hrtime_after s))
         then 1%nat else 0%nat).


(** The real number that a finite double is. *)
Definition exact (x : float) : option Q :=
  match Prim2SF x with
  | S754_zero _ => Some 0%Q
  | S754_finite negative m e =>
      Some ((if negative then -1 else 1) * inject_Z (Zpos m) * Qpower 2 e)%Q
  | _ => None
  end.

(** The six level names. *)
Definition level_names : list string :=
  ["fatal"; "error"; "warn"; "info"; "debug"; "trace"].

(** The environment override as the specification words it: the variable
    decides the default level only when it holds one of the six names;
    otherwise the default is [info]. *)
Definition level_override (LOG_LEVEL : option string) (lvl : string)
  : Prop :=
  match LOG_LEVEL with
  | Some l => if bool_decide (l ∈ level_names) then lvl = l else lvl = "info"
  | None => lvl = "info"
  end.

Fixpoint string_forall (P : ascii → bool) (s : string) : bool :=
  match s with
  | EmptyString => true
  | String c r => P c && string_forall P r
  end.

Definition is_digit (c : ascii) : bool :=
  let n := N_of_ascii c in ((48 <=? n) && (n <=? 57))%N.

Definition is_base36 (c : ascii) : bool :=
  let n := N_of_ascii c in
  (((48 <=? n) && (n <=? 57)) || ((97 <=? n) && (n <=? 122)))%N.

(** What [toString(36)] prints for a number of [[0, 1)]: ["0"], or ["0."]
    and at least one lower-case base-36 digit. *)
Definition radix36_fraction (r : string) : bool :=
  match r with
  | String "0" EmptyString => true
  | String "0" (String "." (String c ds)) =>
      is_base36 c && string_forall is_base36 ds
  | _ => false
  end.

(** The shape of a request id as the specification words it. *)
Definition request_id_shape (now : N) (id : string) : Prop :=
  ∃ suffix,
    id = "req_" +:+ NilZero.string_of_uint (N.to_uint now) +:+ "_" +:+ suffix
    ∧ string_forall is_base36 suffix = true
    ∧ (10 ≤ String.length suffix ≤ 13)%nat.
End Spec.

(* ===================================================================== *)
(** * Part II: properties                                                 *)
(* ===================================================================== *)

(** ** Property lists *)

Section ObjLemmas.
Context {V : Type}.
Implicit Types (o : obj V) (k : string) (v : V).

Lemma get_define k k' v o :
  Obj.get k' (Obj.define k v o)
  = if decide (k' = k) then Some v else Obj.get k' o.
Proof.
  induction o as [|[k0 v0] o IH]; simpl.
  - repeat case_decide; congruence.
  - destruct (decide (k = k0)) as [->|Hne]; simpl.
    + repeat case_decide; congruence.
    + rewrite IH. repeat case_decide; congruence.
Qed.

Lemma get_assign k k' v o :
  k ≠ "__proto__" →
  Obj.get k' (Obj.assign k v o)
  = if decide (k' = k) then Some v else Obj.get k' o.
Proof.
  intros Hk. unfold Obj.assign. rewrite decide_False by done.
  apply get_define.
Qed.

Lemma assign_proto v o : Obj.assign "__proto__" v o = o.
Proof. reflexivity. Qed.

Lemma elem_of_keys_get k o : k ∈ Obj.keys o ↔ is_Some (Obj.get k o).
Proof.
  unfold Obj.keys. induction o as [|[k0 v0] o IH]; simpl.
  - split; [intros Hin; inversion Hin | intros [? ?]; discriminate].
  - rewrite elem_of_cons, IH. case_decide; subst.
    + split; eauto.
    + split; [intros [?|?]; done | by right].
Qed.

Lemma keys_define k v o :
  ∀ k', k' ∈ Obj.keys (Obj.define k v o) ↔ k' = k ∨ k' ∈ Obj.keys o.
Proof.
  intros k'. rewrite !elem_of_keys_get, get_define.
  case_decide; subst; split; eauto. intros [?|?]; done.
Qed.

Lemma NoDup_keys_define k v o :
  NoDup (Obj.keys o) → NoDup (Obj.keys (Obj.define k v o)).
Proof.
  unfold Obj.keys. induction o as [|[k0 v0] o IH]; simpl.
  - intros _. apply NoDup_singleton.
  - intros [Hk0 Hnd]%NoDup_cons. case_decide; subst; simpl.
    + by apply NoDup_cons.
    + apply NoDup_cons. split; [|auto].
      intros Hin. apply (keys_define k v o k0) in Hin as [?|?]; done.
Qed.

Lemma NoDup_keys_assign k v o :
  NoDup (Obj.keys o) → NoDup (Obj.keys (Obj.assign k v o)).
Proof. unfold Obj.assign. case_decide; [done | apply NoDup_keys_define]. Qed.
End ObjLemmas.

(** ** Header redaction ([getHeaders]) *)

Section GetHeaders.
Context `{Platform}.
Implicit Types (headers : obj string) (D : list string) (k v : string).

Import HonoUtils.

Lemma getHeaders_unfold headers D :
  getHeaders headers D = foldl (header_step D) [] headers.
Proof. reflexivity. Qed.

Lemma header_step_get D acc kv k :
  k ≠ "__proto__" →
  Obj.get k (header_step D acc kv)
  = if decide (toLowerCase kv.1 = k)
    then Some (if bool_decide (k ∈ D) then "[REDACTED]" else kv.2)
    else Obj.get k acc.
Proof.
  intros Hk. unfold header_step.
  destruct (decide (toLowerCase kv.1 = k)) as [<-|Hne].
  - case_bool_decide; rewrite get_assign by done; by rewrite decide_True.
  - destruct (decide (toLowerCase kv.1 = "__proto__")) as [->|Hp].
    + rewrite !assign_proto. by case_bool_decide.
    + case_bool_decide; rewrite get_assign by done;
        by rewrite decide_False by done.
Qed.

Lemma header_fold_get D acc headers k :
  k ≠ "__proto__" →
  Obj.get k (foldl (header_step D) acc headers)
  = match Spec.deciding_entry k headers with
    | Some kv => Some (if bool_decide (k ∈ D) then "[REDACTED]" else kv.2)
    | None => Obj.get k acc
    end.
Proof.
  intros Hk. unfold Spec.deciding_entry.
  induction headers as [|kv headers IH] using rev_ind; [done|].
  rewrite foldl_snoc, filter_app, header_step_get by done.
  rewrite filter_cons, filter_nil.
  destruct (decide (toLowerCase kv.1 = k)) as [Heq|Hne].
  - by rewrite last_snoc.
  - by rewrite app_nil_r.
Qed.

Lemma header_fold_proto D acc headers :
  Obj.get "__proto__" (foldl (header_step D) acc headers)
  = Obj.get "__proto__" acc.
Proof.
  induction headers as [|kv headers IH] using rev_ind; [done|].
  rewrite foldl_snoc. rewrite <- IH. unfold header_step.
  destruct (decide (toLowerCase kv.1 = "__proto__")) as [->|Hp].
  - rewrite !assign_proto. by case_bool_decide.
  - case_bool_decide; rewrite get_assign by done;
      by rewrite decide_False by done.
Qed.

Lemma header_fold_NoDup D acc headers :
  NoDup (Obj.keys acc) → NoDup (Obj.keys (foldl (header_step D) acc headers)).
Proof.
  revert acc. induction headers as [|kv headers IH]; intros acc Hnd; [done|].
  simpl. apply IH. unfold header_step.
  case_bool_decide; by apply NoDup_keys_assign.
Qed.

Lemma deciding_entry_unique headers k v :
  NoDup (toLowerCase <$> Obj.keys headers) →
  (k, v) ∈ headers →
  Spec.deciding_entry (toLowerCase k) headers = Some (k, v).
Proof.
  unfold Spec.deciding_entry, Obj.keys.
  induction headers as [|[k0 v0] headers IH]; simpl.
  - intros _ Hin. inversion Hin.
  - intros [Hk0 Hnd]%NoDup_cons Hin. rewrite filter_cons. simpl.
    assert (Hfresh : ∀ k' v', (k', v') ∈ headers →
              toLowerCase k' ≠ toLowerCase k0).
    { intros k' v' Hin' Heq. apply Hk0. rewrite <- Heq.
      apply list_elem_of_fmap. exists k'. split; [done|].
      apply list_elem_of_fmap. by exists (k', v'). }
    apply elem_of_cons in Hin as [[= -> ->]|Hin].
    + rewrite decide_True by done.
      destruct (filter (λ kv, toLowerCase kv.1 = toLowerCase k0) headers)
        as [|[k' v'] rest] eqn:Hf; [done|].
      assert (Hin' : (k', v') ∈ filter
                (λ kv, toLowerCase kv.1 = toLowerCase k0) headers)
        by (rewrite Hf; left).
      apply list_elem_of_filter in Hin' as [Heq Hin']. simpl in Heq.
      by apply Hfresh in Hin'.
    + rewrite decide_False by (intros Heq; by eapply Hfresh).
      auto.
Qed.

Lemma deciding_entry_Some k headers kv :
  Spec.deciding_entry k headers = Some kv → kv ∈ headers ∧ toLowerCase kv.1 = k.
Proof.
  unfold Spec.deciding_entry. intros Hl%last_Some_elem_of.
  apply list_elem_of_filter in Hl as [? ?]. done.
Qed.

Lemma deciding_entry_None k headers :
  Spec.deciding_entry k headers = None → k ∉ toLowerCase <$> Obj.keys headers.
Proof.
  unfold Spec.deciding_entry, Obj.keys. intros Hl%last_None Hin.
  apply list_elem_of_fmap in Hin as (k0 & -> & Hin).
  apply list_elem_of_fmap in Hin as ([k1 v1] & -> & Hin).
  eapply (filter_nil_not_elem_of _ _ (k1, v1)) in Hl; done.
Qed.

(** The heap version writes the object that [getHeaders] computes into a
    fresh location and touches nothing else. *)
Lemma getHeaders_heap_fold D s (h : gmap positive (obj string)) acc headers :
  foldl (λ h' kv,
           let lowerKey := toLowerCase kv.1 in
           if bool_decide (lowerKey ∈ D)
           then alter (Obj.assign lowerKey "[REDACTED]") s h'
           else alter (Obj.assign lowerKey kv.2) s h')
        (<[s := acc]> h) headers
  = <[s := foldl (header_step D) acc headers]> h.
Proof.
  revert acc. induction headers as [|kv headers IH]; intros acc; [done|].
  simpl. unfold header_step at 2.
  case_bool_decide; rewrite alter_insert_eq; apply IH.
Qed.

Lemma getHeaders_heap_spec D (h : gmap positive (obj string)) l headers :
  h !! l = Some headers →
  ∃ s, getHeaders_heap l D h
       = Some (s, <[s := getHeaders headers D]> h)
       ∧ h !! s = None.
Proof.
  intros Hl. exists (fresh (dom h)). split.
  - unfold getHeaders_heap. rewrite Hl. simpl.
    by rewrite getHeaders_heap_fold.
  - apply not_elem_of_dom, is_fresh.
Qed.

(** C3 (amended). For every header mapping whose keys have pairwise
    distinct lower-cased forms, none of them [__proto__], and every
    deny-list: the keys of the result of [getHeaders] are the lower-cased
    keys of the input, a key whose lower-cased form is on the deny-list
    maps to ["[REDACTED]"], every other key maps to its own value; and
    called on a reference, the function returns a freshly allocated object
    and leaves the heap, the input included, as it was. *)
Theorem getHeaders_redacts headers D :
  NoDup (toLowerCase <$> Obj.keys headers) →
  ("__proto__" ∉ toLowerCase <$> Obj.keys headers) →
  Spec.redaction headers D (getHeaders headers D)
  ∧ ∀ (h : gmap positive (obj string)) l,
      h !! l = Some headers →
      ∃ s, getHeaders_heap l D h
           = Some (s, <[s := getHeaders headers D]> h)
           ∧ h !! s = None
           ∧ (<[s := getHeaders headers D]> h) !! l = Some headers.
Proof.
  intros Hnd Hproto. split; [split|].
  - intros k. rewrite elem_of_keys_get, getHeaders_unfold.
    destruct (decide (k = "__proto__")) as [->|Hk].
    + rewrite header_fold_proto. simpl. split; [intros [? ?]|]; done.
    + rewrite header_fold_get by done.
      destruct (Spec.deciding_entry k headers) as [kv|] eqn:Hd.
      * apply deciding_entry_Some in Hd as [Hin <-]. split; [|eauto].
        intros _. apply list_elem_of_fmap. exists kv.1. split; [done|].
        apply list_elem_of_fmap. by exists kv.
      * apply deciding_entry_None in Hd. simpl.
        split; [intros [? ?]|]; done.
  - intros k v Hin. rewrite getHeaders_unfold, header_fold_get.
    + by rewrite (deciding_entry_unique _ _ v).
    + intros Heq. apply Hproto. rewrite <- Heq.
      apply list_elem_of_fmap. exists k. split; [done|].
      apply list_elem_of_fmap. by exists (k, v).
  - intros h l Hl. destruct (getHeaders_heap_spec D h l headers Hl)
      as (s & Heq & Hs).
    exists s. repeat split; [done..|].
    rewrite lookup_insert_ne; [done|]. intros ->. congruence.
Qed.
End GetHeaders.

Lemma getHeaders_redacts_witness :
  let headers := [("Authorization", "Bearer x"); ("X-Test", "value")] in
  Spec.redaction (H := ref_platform) headers ["authorization"]
    (HonoUtils.getHeaders (H := ref_platform) headers ["authorization"])
  ∧ HonoUtils.getHeaders (H := ref_platform) headers ["authorization"]
    = [("authorization", "[REDACTED]"); ("x-test", "value")].
Proof.
  split; [|reflexivity].
  apply (getHeaders_redacts (H := ref_platform)).
  - apply (bool_decide_unpack _). vm_compute. reflexivity.
  - apply (bool_decide_unpack _). vm_compute. reflexivity.
Defined.

(** Two inputs at which the redaction property as the specification words
    it fails: keys that differ only in case, where the later entry takes the
    slot of both, and the key [__proto__], which the result never holds. *)
Lemma getHeaders_redaction_counterexample :
  ¬ Spec.redaction (H := ref_platform) [("A", "1"); ("a", "2")] []
      (HonoUtils.getHeaders (H := ref_platform) [("A", "1"); ("a", "2")] [])
  ∧ ¬ Spec.redaction (H := ref_platform) [("__proto__", "x")] []
      (HonoUtils.getHeaders (H := ref_platform) [("__proto__", "x")] []).
Proof.
  split.
  - intros [_ Hv]. specialize (Hv "A" "1"). vm_compute in Hv.
    assert (Hin : ("A", "1") ∈ [("A", "1"); ("a", "2")]) by left.
    specialize (Hv Hin). discriminate.
  - intros [Hk _]. specialize (Hk "__proto__"). vm_compute in Hk.
    destruct Hk as [_ Hk]. assert (Hin : "__proto__" ∈ ["__proto__"]) by left.
    specialize (Hk Hin). inversion Hk.
Qed.

(** ** Error serialization ([isError], [errorSerializer]) *)

Section ErrorSerializer.
Context `{Platform}.
Import Errors.

Lemma copy_fold_get err acc ks k :
  Obj.get k (fields (foldl (copy_step err) acc ks))
  = if bool_decide (k ∈ ks) && hasOwnProperty err k
       && negb (bool_decide (k ∈ ["name"; "message"; "stack"]))
       && negb (bool_decide (k = "__proto__"))
    then Some (member k err) else Obj.get k (fields acc).
Proof.
  induction ks as [|x ks IH] using rev_ind.
  - rewrite bool_decide_eq_false_2; [done|]. intros Hin. inversion Hin.
  - rewrite foldl_snoc. unfold copy_step at 1.
    destruct (decide (x = k)) as [->|Hne].
    + rewrite (bool_decide_eq_true_2 (k ∈ ks ++ [k]))
        by (apply elem_of_app; right; left).
      simpl. destruct (hasOwnProperty err k); simpl.
      2:{ rewrite IH. by destruct (bool_decide (k ∈ ks)). }
      destruct (bool_decide (k ∈ ["name"; "message"; "stack"])); simpl.
      { rewrite IH. by destruct (bool_decide (k ∈ ks)). }
      destruct (decide (k = "__proto__")) as [->|Hp].
      * rewrite assign_proto, IH. by destruct (bool_decide _).
      * rewrite (bool_decide_eq_false_2 (k = "__proto__")) by done.
        rewrite get_assign by done. by rewrite decide_True.
    + assert (Hiff : bool_decide (k ∈ ks ++ [x]) = bool_decide (k ∈ ks)).
      { apply bool_decide_ext. rewrite elem_of_app, list_elem_of_singleton.
        split; [intros [?|?]; [done|congruence] | by left]. }
      rewrite Hiff, <- IH.
      destruct (hasOwnProperty err x
                && negb (bool_decide (x ∈ ["name"; "message"; "stack"])));
        [|done].
      simpl. unfold Obj.assign. destruct (decide (x = "__proto__")); [done|].
      rewrite get_define. by rewrite decide_False by done.
Qed.

Lemma copy_fold_prototype err acc ks :
  prototype (foldl (copy_step err) acc ks)
  = if bool_decide ("__proto__" ∈ ks) && hasOwnProperty err "__proto__"
       && is_prototype (member "__proto__" err)
    then Some (member "__proto__" err) else prototype acc.
Proof.
  induction ks as [|x ks IH] using rev_ind.
  - rewrite bool_decide_eq_false_2; [done|]. intros Hin. inversion Hin.
  - rewrite foldl_snoc. unfold copy_step at 1.
    destruct (decide (x = "__proto__")) as [->|Hne].
    + rewrite (bool_decide_eq_true_2 ("__proto__" ∈ ks ++ ["__proto__"]))
        by (apply elem_of_app; right; left).
      simpl. destruct (hasOwnProperty err "__proto__"); simpl.
      2:{ rewrite IH. by rewrite andb_false_r. }
      destruct (is_prototype (member "__proto__" err)); [done|].
      rewrite IH. by rewrite andb_false_r.
    + assert (Hiff : bool_decide ("__proto__" ∈ ks ++ [x])
                     = bool_decide ("__proto__" ∈ ks)).
      { apply bool_decide_ext. rewrite elem_of_app, list_elem_of_singleton.
        split; [intros [?|?]; [done|congruence] | by left]. }
      rewrite Hiff, <- IH.
      destruct (hasOwnProperty err x
                && negb (bool_decide (x ∈ ["name"; "message"; "stack"])));
        [|done].
      simpl. by rewrite decide_False.
Qed.

Lemma for_in_own err k :
  bool_decide (k ∈ for_in_keys err) && hasOwnProperty err k
  = Spec.own_enumerable err k.
Proof.
  destruct err as [| | | | | | |e own inh]; simpl;
    try (by rewrite ?andb_false_r).
  unfold Obj.has, Obj.keys.
  apply eq_true_iff_eq. rewrite andb_true_iff, !bool_decide_eq_true.
  rewrite elem_of_app, !list_elem_of_fmap. split.
  - intros [[Hown|Hinh] Hhas]; [done|].
    destruct Hinh as ([k' p] & -> & Hin).
    apply list_elem_of_filter in Hin as [[_ Hno] _]. simpl in *.
    apply bool_decide_eq_false in Hno. destruct Hno.
    by apply list_elem_of_fmap.
  - intros ([k' p] & -> & Hin). split; [left; by exists (k', p)|].
    apply list_elem_of_filter in Hin as [_ Hin]. by exists (k', p).
Qed.

Lemma copied_own err k :
  Spec.copied err k
  = Spec.own_enumerable err k
    && negb (bool_decide (k ∈ ["name"; "message"; "stack"]))
    && negb (bool_decide (k = "__proto__")).
Proof. unfold Spec.copied. by rewrite for_in_own. Qed.

Lemma errorSerializer_error err :
  isError err = true →
  errorSerializer err
  = foldl (copy_step err)
      (Serialized
         (if truthy (member "stack" err)
          then [("type", member "name" err); ("message", member "message" err);
                ("stack", member "stack" err)]
          else [("type", member "name" err); ("message", member "message" err)])
         None)
      (for_in_keys err).
Proof.
  intros He. unfold errorSerializer. rewrite He. simpl.
  by destruct (truthy (member "stack" err)).
Qed.

Lemma errorSerializer_get err k :
  isError err = true →
  Obj.get k (fields (errorSerializer err))
  = if Spec.copied err k then Some (member k err)
    else if decide (k = "type") then Some (member "name" err)
    else if decide (k = "message") then Some (member "message" err)
    else if decide (k = "stack")
         then (if truthy (member "stack" err)
               then Some (member "stack" err) else None)
    else None.
Proof.
  intros He. rewrite errorSerializer_error by done.
  rewrite copy_fold_get. fold (Spec.copied err k).
  destruct (Spec.copied err k); [done|].
  destruct (truthy (member "stack" err)); simpl;
    repeat case_decide; subst; done.
Qed.

Lemma errorSerializer_prototype err :
  isError err = true →
  prototype (errorSerializer err)
  = if Spec.own_enumerable err "__proto__"
       && is_prototype (member "__proto__" err)
    then Some (member "__proto__" err) else None.
Proof.
  intros He. rewrite errorSerializer_error by done.
  by rewrite copy_fold_prototype, for_in_own.
Qed.

End ErrorSerializer.



(** ** Spreads *)

Section Spread.
Context {V : Type}.
Implicit Types (o t s : obj V) (k : string).

Lemma get_spread k t s :
  Obj.get k (Obj.spread t s)
  = match last (filter (λ kv, kv.1 = k) s) with
    | Some kv => Some kv.2
    | None => Obj.get k t
    end.
Proof.
  unfold Obj.spread. induction s as [|kv s IH] using rev_ind; [done|].
  rewrite foldl_snoc, get_define, filter_app, filter_cons, filter_nil.
  destruct (decide (kv.1 = k)) as [->|Hne].
  - by rewrite last_snoc, decide_True.
  - by rewrite app_nil_r, decide_False.
Qed.

Lemma last_filter_NoDup k o :
  NoDup (Obj.keys o) →
  snd <$> last (filter (λ kv, kv.1 = k) o) = Obj.get k o.
Proof.
  unfold Obj.keys. induction o as [|[k0 v0] o IH]; [done|].
  intros [Hk0 Hnd]%NoDup_cons. rewrite filter_cons. simpl.
  destruct (decide (k0 = k)) as [->|Hne].
  - rewrite decide_True by done.
    destruct (filter (λ kv, kv.1 = k) o) as [|[k' v'] rest] eqn:Hf; [done|].
    assert (Hin : (k', v') ∈ filter (λ kv, kv.1 = k) o) by (rewrite Hf; left).
    apply list_elem_of_filter in Hin as [Heq Hin]. simpl in Heq. subst k'.
    destruct Hk0. apply list_elem_of_fmap. by exists (k, v').
  - rewrite decide_False by done. auto.
Qed.

Lemma get_spread_NoDup k t s :
  NoDup (Obj.keys s) →
  Obj.get k (Obj.spread t s)
  = match Obj.get k s with Some v => Some v | None => Obj.get k t end.
Proof.
  intros Hnd. rewrite get_spread, <- (last_filter_NoDup k s Hnd).
  by destruct (last _).
Qed.

Lemma spread_nil_get k s :
  NoDup (Obj.keys s) → Obj.get k (Obj.spread [] s) = Obj.get k s.
Proof. intros Hnd. rewrite get_spread_NoDup by done. by destruct (Obj.get k s). Qed.
End Spread.

(** ** Query parameters ([getQueryParams]) *)

Section GetQueryParams.
Context `{Platform}.
Import HonoUtils.

Lemma query_fold_get (entries : list (string * string)) acc k :
  k ≠ "__proto__" →
  Obj.get k (foldl (λ params kv, Obj.assign kv.1 kv.2 params) acc entries)
  = match Spec.last_value k entries with
    | Some v => Some v
    | None => Obj.get k acc
    end.
Proof.
  intros Hk. unfold Spec.last_value.
  induction entries as [|kv entries IH] using rev_ind; [done|].
  rewrite foldl_snoc, filter_app, filter_cons, filter_nil.
  destruct (decide (kv.1 = k)) as [Heq|Hne].
  - rewrite last_snoc. simpl. rewrite <- Heq at 1.
    rewrite get_assign by (by rewrite Heq). by rewrite decide_True.
  - rewrite app_nil_r, <- IH. unfold Obj.assign.
    destruct (decide (kv.1 = "__proto__")); [done|].
    rewrite get_define. by rewrite decide_False.
Qed.

Lemma query_fold_proto (entries : list (string * string)) acc :
  Obj.get "__proto__"
    (foldl (λ params kv, Obj.assign kv.1 kv.2 params) acc entries)
  = Obj.get "__proto__" acc.
Proof.
  induction entries as [|kv entries IH] using rev_ind; [done|].
  rewrite foldl_snoc, <- IH. unfold Obj.assign.
  destruct (decide (kv.1 = "__proto__")); [done|].
  rewrite get_define. by rewrite decide_False.
Qed.

(** The function is partial: it throws exactly when the [URL]
    constructor does. *)
Lemma getQueryParams_throws url :
  url_searchParams url = None ↔ ∃ e, getQueryParams url = Throw e.
Proof.
  unfold getQueryParams. destruct (url_searchParams url); split.
  - done.
  - intros [e He]. done.
  - eauto.
  - done.
Qed.

(** On a parseable URL it returns an object that gives every key other
    than [__proto__] the value of its last occurrence in the query. *)
Lemma getQueryParams_returns url entries :
  url_searchParams url = Some entries →
  ∃ params, getQueryParams url = Return params
    ∧ ∀ k, k ≠ "__proto__" → Obj.get k params = Spec.last_value k entries.
Proof.
  intros Hu. unfold getQueryParams. rewrite Hu. eexists. split; [done|].
  intros k Hk. rewrite query_fold_get by done.
  by destruct (Spec.last_value k entries).
Qed.
End GetQueryParams.

(** C10 (failing input). On the absolute URL
    [http://localhost/users?__proto__=1&x=2&x=3] the query has the entries
    [__proto__=1], [x=2], [x=3]; [getQueryParams] returns [{x: "3"}], which
    is not the flat mapping of the query: the parameter [__proto__] is
    missing. On the bare path [/users?x=1] it throws. *)
Theorem getQueryParams_drops_proto :
  let url := "http://localhost/users?__proto__=1&x=2&x=3" in
  url_searchParams (Platform := ref_platform) url
  = Some [("__proto__", "1"); ("x", "2"); ("x", "3")]
  ∧ HonoUtils.getQueryParams (H := ref_platform) url = Return [("x", "3")]
  ∧ ¬ Spec.query_mapping [("__proto__", "1"); ("x", "2"); ("x", "3")]
        [("x", "3")]
  ∧ HonoUtils.getQueryParams (H := ref_platform) "/users?x=1"
    = Throw invalid_url_error.
Proof.
  split_and!; try reflexivity.
  intros Hm. specialize (Hm "__proto__"). vm_compute in Hm. discriminate.
Qed.

(** ** The default level ([DEFAULT_LEVEL]) *)

(** C7 (amended). The environment variable [LOG_LEVEL] decides the default
    minimum level whenever it is set to a non-empty string, whether or not
    that string is one of the six level names (in particular when it is one
    of them); when it is unset or empty the default minimum level is
    [info]. The default options carry that level. *)
Theorem DEFAULT_LEVEL_override (LOG_LEVEL : option string) :
  (∀ l, LOG_LEVEL = Some l → l ≠ "" → Constants.DEFAULT_LEVEL LOG_LEVEL = l)
  ∧ (∀ l, LOG_LEVEL = Some l → l ∈ Spec.level_names →
          Constants.DEFAULT_LEVEL LOG_LEVEL = l)
  ∧ (LOG_LEVEL = None ∨ LOG_LEVEL = Some "" →
     Constants.DEFAULT_LEVEL LOG_LEVEL = "info")
  ∧ Obj.get "level" (Defaults.defaultOptions LOG_LEVEL)
    = Some (VStr (Constants.DEFAULT_LEVEL LOG_LEVEL)).
Proof.
  split_and!.
  - intros l -> Hl. simpl. by rewrite decide_False.
  - intros l -> Hl. simpl. rewrite decide_False; [done|].
    intros Heq. subst l. revert Hl.
    apply (bool_decide_unpack _). vm_compute. reflexivity.
  - intros [->| ->]; reflexivity.
  - reflexivity.
Qed.

Lemma DEFAULT_LEVEL_override_witness :
  Constants.DEFAULT_LEVEL (Some "debug") = "debug"
  ∧ Constants.DEFAULT_LEVEL (Some "verbose") = "verbose"
  ∧ Constants.DEFAULT_LEVEL None = "info".
Proof.
  split_and!.
  - apply (proj1 (proj2 (DEFAULT_LEVEL_override (Some "debug"))));
      [reflexivity|].
    apply (bool_decide_unpack _). vm_compute. reflexivity.
  - apply (proj1 (DEFAULT_LEVEL_override (Some "verbose")));
      [reflexivity|discriminate].
  - apply (DEFAULT_LEVEL_override None). by left.
Defined.

(** [LOG_LEVEL=verbose] is not one of the six names, and it is the default
    level all the same. *)
Lemma DEFAULT_LEVEL_counterexample :
  ("verbose" ∉ Spec.level_names)
  ∧ Constants.DEFAULT_LEVEL (Some "verbose") = "verbose"
  ∧ ¬ Spec.level_override (Some "verbose")
        (Constants.DEFAULT_LEVEL (Some "verbose")).
Proof.
  split_and!.
  - apply (bool_decide_unpack _). vm_compute. reflexivity.
  - reflexivity.
  - vm_compute. discriminate.
Qed.

(** ** The option merge of [createLogger] *)

Lemma defaultOptions_NoDup LOG_LEVEL :
  NoDup (Obj.keys (Defaults.defaultOptions LOG_LEVEL)).
Proof. apply (bool_decide_unpack _). vm_compute. reflexivity. Qed.

(** C9. The merge of the user's options over the defaults is one level
    deep: a key that the options supply, with whatever value, takes that
    value whole, and a key that they do not supply keeps its default.
    Passing [redact: {paths: ['x']}] leaves a [redact] without the default
    paths and without [remove], next to the default [serializers]. The
    logger that [createLogger] returns is built from these merged options. *)
Theorem mergedOptions_shallow (LOG_LEVEL : option string) (opts : obj value) :
  NoDup (Obj.keys opts) →
  (∀ k v, Obj.get k opts = Some v →
          Obj.get k (Logger.mergedOptions LOG_LEVEL opts) = Some v)
  ∧ (∀ k, Obj.get k opts = None →
          Obj.get k (Logger.mergedOptions LOG_LEVEL opts)
          = Obj.get k (Defaults.defaultOptions LOG_LEVEL))
  ∧ (let custom := VRec [("paths", VArr [VStr "x"])] in
     let merged := Logger.mergedOptions LOG_LEVEL [("redact", custom)] in
     Obj.get "redact" merged = Some custom
     ∧ member "remove" custom = VUndefined
     ∧ member "paths" custom = VArr [VStr "x"]
     ∧ Obj.get "serializers" merged
       = Some (VRec [("error", VFun "errorSerializer")]))
  ∧ (∀ h, ∃ l,
       Logger.createLogger LOG_LEVEL opts h
       = (l, <[l := Backend.Instance_ (Logger.mergedOptions LOG_LEVEL opts) []]> h)
       ∧ h !! l = None).
Proof.
  intros Hnd. unfold Logger.mergedOptions. split; [|split; [|split]].
  - intros k v Hk. by rewrite get_spread_NoDup, Hk.
  - intros k Hk. rewrite get_spread_NoDup, Hk by done.
    apply spread_nil_get, defaultOptions_NoDup.
  - split_and!; reflexivity.
  - intros h. exists (fresh (dom h)). split; [reflexivity|].
    apply not_elem_of_dom, is_fresh.
Qed.

Lemma mergedOptions_shallow_witness :
  Obj.get "level" (Logger.mergedOptions None
                     [("level", VStr "debug"); ("base", VRec [("app", VStr "test")])])
  = Some (VStr "debug")
  ∧ Obj.get "redact" (Logger.mergedOptions None
                     [("level", VStr "debug"); ("base", VRec [("app", VStr "test")])])
    = Obj.get "redact" (Defaults.defaultOptions None).
Proof.
  assert (Hnd : NoDup (Obj.keys
            [("level", VStr "debug"); ("base", VRec [("app", VStr "test")])]))
    by (apply (bool_decide_unpack _); vm_compute; reflexivity).
  split.
  - apply (mergedOptions_shallow None _ Hnd). reflexivity.
  - apply (mergedOptions_shallow None _ Hnd). reflexivity.
Defined.

(** ** Request identifiers ([generateRequestId]) *)

Section RequestId.
Import Spec.

Lemma string_forall_substring P n m s :
  string_forall P s = true → string_forall P (String.substring n m s) = true.
Proof.
  revert n m. induction s as [|c s IH]; intros n m Hs.
  - by destruct n, m.
  - simpl in Hs. apply andb_true_iff in Hs as [Hc Hs].
    destruct n as [|n]; [destruct m as [|m]|]; simpl; [done| |by apply IH].
    rewrite Hc. by apply IH.
Qed.

Lemma length_substring n m s :
  String.length (String.substring n m s) = (m `min` (String.length s - n))%nat.
Proof.
  revert n m. induction s as [|c s IH]; intros n m.
  - destruct n, m; simpl; lia.
  - destruct n as [|n]; [destruct m as [|m]|]; simpl; [done| |by rewrite IH].
    rewrite IH. f_equal. f_equal. lia.
Qed.

Lemma digits_of_uint d :
  string_forall is_digit (NilEmpty.string_of_uint d) = true.
Proof. induction d; simpl; done. Qed.

Lemma decimal_digits (n : N) :
  string_forall is_digit (NilZero.string_of_uint (N.to_uint n)) = true
  ∧ NilZero.string_of_uint (N.to_uint n) ≠ "".
Proof.
  unfold NilZero.string_of_uint.
  destruct (N.to_uint n) eqn:Hd; try (split; [apply digits_of_uint|done]).
  done.
Qed.

Lemma radix36_fraction_all r :
  radix36_fraction r = true →
  string_forall is_base36 (String.substring 2 13 r) = true.
Proof.
  intros Hr. destruct r as [|c0 [|c1 r]].
  - done.
  - done.
  - assert (Hrest : string_forall is_base36 r = true).
    { unfold radix36_fraction in Hr.
      destruct (Ascii.eqb_spec c0 "0") as [->|]; [|by destruct c0 as [[] [] [] [] [] [] [] []]].
      destruct (Ascii.eqb_spec c1 ".") as [->|]; [|by destruct c1 as [[] [] [] [] [] [] [] []]].
      destruct r as [|c r]; [done|]. done. }
    change (String.substring 2 13 (String c0 (String c1 r)))
      with (String.substring 0 13 r).
    by apply string_forall_substring.
Qed.

(** C8 (amended). For a clock reading [now] and a rendering ["0." ds] of
    the random number in base 36, with [ds] made of lower-case base-36
    digits, [generateRequestId] returns [req_<unixMillis>_<suffix>], where
    [<unixMillis>] is the non-empty decimal numeral of [now] and [<suffix>]
    is the first 13 characters of [ds], or all of [ds] when it has fewer:
    lower-case base-36 characters, 13 at most and as few as [ds] has. For
    the rendering ["0"] the suffix is empty. *)
Theorem generateRequestId_shape (now : N) (ds : string) :
  string_forall is_base36 ds = true →
  ContextUtils.generateRequestId now ("0." +:+ ds)
  = "req_" +:+ NilZero.string_of_uint (N.to_uint now) +:+ "_"
    +:+ String.substring 0 13 ds
  ∧ ContextUtils.generateRequestId now "0"
    = "req_" +:+ NilZero.string_of_uint (N.to_uint now) +:+ "_"
  ∧ string_forall is_digit (NilZero.string_of_uint (N.to_uint now)) = true
  ∧ NilZero.string_of_uint (N.to_uint now) ≠ ""
  ∧ string_forall is_base36 (String.substring 0 13 ds) = true
  ∧ String.length (String.substring 0 13 ds)
    = (13 `min` String.length ds)%nat.
Proof.
  intros Hds. destruct (decimal_digits now) as [Hd Hne].
  split_and!; try done.
  - by apply string_forall_substring.
  - rewrite length_substring. f_equal. lia.
Qed.
End RequestId.

Lemma generateRequestId_shape_witness :
  ContextUtils.generateRequestId 1700000000000 "0.4fzyo82mvyr"
  = "req_1700000000000_4fzyo82mvyr"
  ∧ ContextUtils.generateRequestId 1700000000000 "0.4fzyo82mvyrq1w2e3"
    = "req_1700000000000_4fzyo82mvyrq1"
  ∧ String.length (String.substring 0 13 "4fzyo82mvyr") = 11%nat.
Proof.
  split_and!.
  - exact (proj1 (generateRequestId_shape 1700000000000 "4fzyo82mvyr"
                    eq_refl)).
  - exact (proj1 (generateRequestId_shape 1700000000000 "4fzyo82mvyrq1w2e3"
                    eq_refl)).
  - exact (proj2 (proj2 (proj2 (proj2 (proj2
             (generateRequestId_shape 1700000000000 "4fzyo82mvyr"
                eq_refl)))))).
Defined.

(** When [Math.random()] returns [0.5], which base 36 renders as ["0.i"],
    the suffix is the single character ["i"]. *)
Lemma generateRequestId_counterexample :
  Spec.radix36_fraction "0.i" = true
  ∧ ContextUtils.generateRequestId 1700000000000 "0.i" = "req_1700000000000_i"
  ∧ ¬ Spec.request_id_shape 1700000000000
        (ContextUtils.generateRequestId 1700000000000 "0.i").
Proof.
  split_and!; [reflexivity..|].
  intros (suffix & Heq & _ & Hlen). vm_compute in Heq.
  injection Heq as <-. simpl in Hlen. lia.
Qed.

(** ** Context composition ([withContext], [createContextLogger]) *)

Section WithContext.
Implicit Types (h : gmap positive Backend.instance) (l : positive).

Lemma child_spec h l inst ctx :
  h !! l = Some inst →
  ∃ c, Backend.child l ctx h
       = Some (c, <[c := Backend.Instance_ (Backend.options inst)
                           (Obj.spread (Backend.bindings inst) ctx)]> h)
       ∧ h !! c = None ∧ c ≠ l.
Proof.
  intros Hl. exists (fresh (dom h)).
  assert (Hfresh : h !! fresh (dom h) = None)
    by apply not_elem_of_dom, is_fresh.
  split_and!; [|done|congruence].
  unfold Backend.child. by rewrite Hl.
Qed.




End WithContext.



(** ** The request-observability middleware *)

Arguments Number_of_bigint : simpl never.
Arguments HonoUtils.formatDuration : simpl never.
Arguments Spec.elapsed_ms : simpl never.

Section MiddlewareProperties.
Context `{Platform}.
Import HonoConfig Middleware.
Implicit Types (config : HonoLoggerOptions) (h : gmap positive Backend.instance).

(** The request logger is a fresh child of the middleware's logger. *)
Lemma withRequestContext_spec logger (env : environment) h inst :
  h !! logger = Some inst →
  ∃ rl h',
    ContextUtils.withRequestContext logger None (now env) (random36 env) h
    = Some (rl, h')
    ∧ h !! rl = None
    ∧ h' !! rl
      = Some (Backend.Instance_ (Backend.options inst)
                (Obj.spread (Backend.bindings inst)
                   [("requestId",
                     VStr (ContextUtils.generateRequestId (now env) (random36 env)))]))
    ∧ h' !! logger = Some inst.
Proof.
  intros Hl. unfold ContextUtils.withRequestContext, ContextUtils.createContextLogger.
  destruct (child_spec h logger inst
              [("requestId",
                VStr (ContextUtils.generateRequestId (now env) (random36 env)))] Hl)
    as (rl & Hchild & Hfresh & Hne).
  eexists rl, _. split_and!; [exact Hchild|done| |].
  - apply lookup_insert_eq.
  - by rewrite lookup_insert_ne.
Qed.

Lemma formatDuration_elapsed_ms startTime endTime :
  HonoUtils.formatDuration startTime endTime
  = Spec.elapsed_ms startTime endTime.
Proof. reflexivity. Qed.

(** The handler with its derived logger and heap made explicit. *)
Lemma handler_unfold config logger env c next h inst :
  h !! logger = Some inst →
  ∃ rl,
    h !! rl = None ∧ rl ≠ logger
    ∧ handler config logger env c next h
      = Some
          (let h' :=
             <[rl := Backend.Instance_ (Backend.options inst)
                       (Obj.spread (Backend.bindings inst)
                          [("requestId",
                            VStr (ContextUtils.generateRequestId
                                    (now env) (random36 env)))])]> h in
           match request_payload config c with
           | Throw e => Run [] None (Throw e) c h'
           | Return p =>
               let incoming := Logged rl "info" p "Incoming request" in
               let s := next (set_logger rl c) in
               let c1 := context_after (set_logger rl c) s in
               match outcome s with
               | Return _ =>
                   let completed :=
                     on_success config rl (hrtime env) (hrtime_after s) c1 in
                   match completed.2 with
                   | Return _ =>
                       Run (incoming :: Downstream :: completed.1)
                           (Some s) (Return tt) c1 h'
                   | Throw error =>
                       let failed :=
                         on_failure config rl (hrtime env) (hrtime_catch env)
                           c1 error in
                       Run (incoming :: Downstream
                              :: completed.1 ++ failed.1.2)
                           (Some s) (Throw failed.2) failed.1.1 h'
                   end
               | Throw error =>
                   let failed :=
                     on_failure config rl (hrtime env) (hrtime_after s)
                       c1 error in
                   Run (incoming :: Downstream :: failed.1.2)
                       (Some s) (Throw failed.2) failed.1.1 h'
               end
           end).
Proof.
  intros Hl.
  destruct (child_spec h logger inst
              [("requestId",
                VStr (ContextUtils.generateRequestId (now env) (random36 env)))]
              Hl) as (rl & Hchild & Hfresh & Hne).
  exists rl. split_and!; [done..|].
  unfold handler, ContextUtils.withRequestContext,
    ContextUtils.createContextLogger.
  rewrite Hchild. reflexivity.
Qed.

(** What the [catch] block does to the context. *)
Lemma on_failure_context config rl startTime endTime c e :
  (on_failure config rl startTime endTime c e).1.1 = error_status c.
Proof. unfold on_failure. by destruct (formatted _ _ _). Qed.

Lemma on_failure_events config rl startTime endTime c e :
  (on_failure config rl startTime endTime c e).1.2 = []
  ∨ ∃ q, (on_failure config rl startTime endTime c e).1.2
         = [Logged rl "error" q "Request failed"].
Proof. unfold on_failure. destruct (formatted _ _ _); simpl; eauto. Qed.

Lemma error_status_spec c :
  res_status (error_status c)
  = (match res_status c with
     | None => Some 500
     | Some code => if (code =? 0) || (code <? 400)
                    then Some 500 else Some code
     end)
  ∧ req (error_status c) = req c
  ∧ var_logger (error_status c) = var_logger c.
Proof.
  unfold error_status, status_below_400.
  destruct (res_status c) as [code|] eqn:Hc; simpl; [|done].
  destruct ((code =? 0) || (code <? 400)); simpl; by rewrite ?Hc.
Qed.

(** The request log context is built without an exception when the URL
    parses, if the query is wanted, and the two callbacks return. *)
Lemma request_payload_returns config c :
  (flag_truthy (includeQueryParams config) = true →
   is_Some (url_searchParams (url (req c)))) →
  Spec.callback_returns (getUserContext config) (λ f, f c) →
  Spec.callback_returns (formatRequest config) (λ f, f (req c) c) →
  ∃ p, request_payload config c = Return p.
Proof.
  intros Hurl Huser Hformat. unfold request_payload, formatted.
  destruct (flag_truthy (includeQueryParams config)) eqn:Hq.
  - destruct (Hurl eq_refl) as [entries Hentries].
    unfold HonoUtils.getQueryParams. rewrite Hentries.
    destruct (getUserContext config) as [| |f] eqn:Hf;
      [| |destruct (Huser f) as [u ->]; [done|]];
      (destruct (formatRequest config) as [| |g] eqn:Hg;
       [eauto|eauto|destruct (Hformat g) as [q ->]; [done|eauto]]).
  - destruct (getUserContext config) as [| |f] eqn:Hf;
      [| |destruct (Huser f) as [u ->]; [done|]];
      (destruct (formatRequest config) as [| |g] eqn:Hg;
       [eauto|eauto|destruct (Hformat g) as [q ->]; [done|eauto]]).
Qed.

Lemma count_app lvl msg (t1 t2 : list event) :
  Spec.count lvl msg (t1 ++ t2)
  = (Spec.count lvl msg t1 + Spec.count lvl msg t2)%nat.
Proof. unfold Spec.count. by rewrite filter_app, length_app. Qed.

(** What the lifecycle of the specification says about a whole trace. *)
Lemma lifecycle_counts r :
  Spec.lifecycle r →
  ∃ s, settled r = Some s
    ∧ Spec.count "info" "Incoming request" (trace r) = 1%nat
    ∧ match outcome s with
      | Return _ => Spec.count "info" "Request completed" (trace r) = 1%nat
      | Throw _ => Spec.count "error" "Request failed" (trace r) = 1%nat
      end.
Proof.
  intros (before & after & s & -> & Hs & Hi & Hc & Hf & Hi' & Hterm).
  exists s. split; [done|].
  change (before ++ Downstream :: after)
    with (before ++ [Downstream] ++ after).
  rewrite !count_app, Hi, Hi', Hc, Hf. split; [done|].
  destruct (outcome s); destruct Hterm as [-> _]; done.
Qed.

(** C1 (amended). For every request on which the request log context is
    built without an exception (the URL is a parseable absolute URL
    whenever the query parameters are to be logged, and [getUserContext]
    and [formatRequest], when configured, return), the downstream handler
    is called, with the request logger in the context. If then the
    formatter that the handler calls, when one is configured, returns (the
    response formatter when the continuation returned, the error formatter
    when it threw): exactly one [info] entry "Incoming request" is logged
    before the downstream handler runs, and exactly one terminal entry
    after it, "Request completed" at [info] when the continuation returned
    (the handler then returns) and "Request failed" at [error] when it
    threw (the handler then throws the same error); never both, never
    none. *)
Theorem middleware_lifecycle config logger env c next h inst :
  h !! logger = Some inst →
  (flag_truthy (includeQueryParams config) = true →
   is_Some (url_searchParams (url (req c)))) →
  Spec.callback_returns (getUserContext config) (λ f, f c) →
  Spec.callback_returns (formatRequest config) (λ f, f (req c) c) →
  ∃ r rl s,
    handler config logger env c next h = Some r
    ∧ settled r = Some s
    ∧ s = next (set_logger rl c)
    ∧ ((∀ u, outcome s = Return u →
          Spec.callback_returns (formatResponse config)
            (λ f, f (status_after s)
                    (Context_ (req c) (status_after s) (Some rl)))) →
       (∀ e, outcome s = Throw e →
          Spec.callback_returns (formatError config)
            (λ f, f e (error_status
                         (Context_ (req c) (status_after s) (Some rl))))) →
       Spec.lifecycle r ∧ returned r = outcome s).
Proof.
  intros Hl Hurl Huser Hformat.
  destruct (handler_unfold config logger env c next h inst Hl)
    as (rl & _ & _ & Hrun).
  destruct (request_payload_returns config c Hurl Huser Hformat) as [p Hp].
  eexists _, rl, (next (set_logger rl c)).
  split; [exact Hrun|]. rewrite Hp. cbv zeta.
  set (s := next (set_logger rl c)).
  change (context_after (set_logger rl c) s)
    with (Context_ (req c) (status_after s) (Some rl)).
  set (c1 := Context_ (req c) (status_after s) (Some rl)).
  destruct (outcome s) as [[]|e] eqn:Ho.
  - unfold on_success, formatted.
    change (res_status c1) with (status_after s).
    destruct (match formatResponse config with
              | Given f => f (status_after s) c1
              | _ => Return
                       [("status", status_value c1);
                        ("duration",
                         VNum (HonoUtils.formatDuration (hrtime env)
                                 (hrtime_after s)))]
              end) as [q|e] eqn:Hq.
    + simpl. split; [done|]. split; [done|]. intros _ _. split; [|done].
      eexists [Logged rl "info" p "Incoming request"], _, s.
      split; [reflexivity|]. rewrite Ho.
      split; [done|]. destruct (PrimFloat.ltb _ _); done.
    + simpl. split; [done|]. split; [done|]. intros Hresponse _.
      destruct (formatResponse config) as [| |f] eqn:Hf; [done..|].
      destruct (Hresponse () eq_refl f) as [o Ho']; [done|]. congruence.
  - simpl. split; [done|]. split; [done|]. intros _ Herror.
    unfold on_failure, formatted.
    destruct (match formatError config with
              | Given f => f e (error_status c1)
              | _ => Return
                       [("err", e);
                        ("duration",
                         VNum (HonoUtils.formatDuration (hrtime env)
                                 (hrtime_after s)));
                        ("status", status_value (error_status c1));
                        ("method", VStr (method (req (error_status c1))));
                        ("path", VStr (path (req (error_status c1))))]
              end) as [q|e'] eqn:Hq.
    + simpl. split; [|done].
      eexists [Logged rl "info" p "Incoming request"], _, s.
      split; [reflexivity|]. rewrite Ho. done.
    + destruct (formatError config) as [| |f] eqn:Hf; [done..|].
      destruct (Herror e eq_refl f) as [o Ho']; [done|]. congruence.
Qed.

(** C2 (amended). When the downstream continuation throws [e], the
    response status is 500 if the continuation left it unset or below 400
    and is what the continuation left otherwise. Without a custom error
    formatter, exactly one [error] entry is logged, "Request failed" with
    the payload [{err: e, duration, status, method, path}], and the
    handler throws [e] itself; the same holds with the formatter's result
    as payload when a custom error formatter returns. When the custom
    error formatter throws, no [error] entry is logged and the handler
    throws the formatter's error in place of [e]. *)
Theorem middleware_failure config logger env c next h inst :
  h !! logger = Some inst →
  ∃ r, handler config logger env c next h = Some r
    ∧ ∀ s e, settled r = Some s → outcome s = Throw e →
        res_status (final_context r)
        = (match status_after s with
           | None => Some 500
           | Some code => if (code =? 0) || (code <? 400)
                          then Some 500 else Some code
           end)
        ∧ req (final_context r) = req c
        ∧ ∃ rl,
            var_logger (final_context r) = Some rl
            ∧ ((∀ f, formatError config ≠ Given f) →
               returned r = Throw e
               ∧ filter (λ ev, Spec.has_level "error" ev = true) (trace r)
                 = [Logged rl "error"
                      [("err", e);
                       ("duration",
                        VNum (Spec.elapsed_ms (hrtime env) (hrtime_after s)));
                       ("status", status_value (final_context r));
                       ("method", VStr (method (req c)));
                       ("path", VStr (path (req c)))]
                      "Request failed"])
            ∧ (∀ f payload,
                 formatError config = Given f →
                 f e (final_context r) = Return payload →
                 returned r = Throw e
                 ∧ filter (λ ev, Spec.has_level "error" ev = true) (trace r)
                   = [Logged rl "error" payload "Request failed"])
            ∧ (∀ f e',
                 formatError config = Given f →
                 f e (final_context r) = Throw e' →
                 returned r = Throw e'
                 ∧ filter (λ ev, Spec.has_level "error" ev = true) (trace r)
                   = []).
Proof.
  intros Hl.
  destruct (handler_unfold config logger env c next h inst Hl)
    as (rl & _ & _ & Hrun).
  eexists. split; [exact Hrun|]. cbv zeta. intros s e.
  destruct (request_payload config c) as [p|e0]; [|done].
  set (s0 := next (set_logger rl c)).
  set (c1 := context_after (set_logger rl c) s0).
  destruct (outcome s0) as [u|e1] eqn:Ho.
  { destruct (on_success _ _ _ _ _).2; simpl; intros [= <-]; congruence. }
  simpl. intros [= <-] He. assert (e1 = e) as -> by congruence.
  rewrite on_failure_context.
  destruct (error_status_spec c1) as (Hstatus & Hreq & Hvar).
  split; [exact Hstatus|]. split; [exact Hreq|].
  exists rl. split; [exact Hvar|].
  unfold on_failure, formatted. rewrite Hreq.
  destruct (formatError config) as [| |f] eqn:Hf.
  - split_and!; [done|intros f _ [=]..].
  - split_and!; [done|intros f _ [=]..].
  - split_and!.
    + intros Hnone. by destruct (Hnone f).
    + intros f' payload [= <-] ->. done.
    + intros f' e' [= <-] ->. done.
Qed.
End MiddlewareProperties.

Section SlowRequests.
Context `{Platform}.
Import HonoConfig Middleware.

(** C6 (amended). When the continuation has returned, the elapsed
    milliseconds are computed as a number: the double nearest to the
    difference of the two clock readings, divided by a million. If they
    exceed the threshold (the configured [slowRequestThreshold], 1000 when
    none is configured), the entries of level [warn] are exactly one,
    [({duration, threshold}, "Slow request detected")]; if they do not, no
    [warn] entry is logged. The one [info] entry "Request completed" is
    logged next to it, and the handler returns, when the response
    formatter, if one is configured, returns; when that formatter throws,
    no "Request completed" entry is logged, with or without the
    warning. *)
Theorem middleware_slow_request config logger env c next h inst :
  h !! logger = Some inst →
  ∃ r, handler config logger env c next h = Some r
    ∧ (∀ s u, settled r = Some s → outcome s = Return u →
        ∃ rl,
          var_logger (final_context r) = Some rl
          ∧ (PrimFloat.ltb (threshold_of config)
               (Spec.elapsed_ms (hrtime env) (hrtime_after s)) = true →
             filter (λ ev, Spec.has_level "warn" ev = true) (trace r)
             = [Logged rl "warn"
                  [("duration",
                    VNum (Spec.elapsed_ms (hrtime env) (hrtime_after s)));
                   ("threshold", VNum (threshold_of config))]
                  "Slow request detected"])
          ∧ (PrimFloat.ltb (threshold_of config)
               (Spec.elapsed_ms (hrtime env) (hrtime_after s)) = false →
             filter (λ ev, Spec.has_level "warn" ev = true) (trace r) = [])
          ∧ (Spec.callback_returns (formatResponse config)
               (λ f, f (status_after s)
                       (Context_ (req c) (status_after s) (Some rl))) →
             Spec.count "info" "Request completed" (trace r) = 1%nat
             ∧ returned r = Return tt)
          ∧ (∀ f e,
               formatResponse config = Given f →
               f (status_after s)
                 (Context_ (req c) (status_after s) (Some rl)) = Throw e →
               Spec.count "info" "Request completed" (trace r) = 0%nat))
    ∧ (∀ options,
         (∀ t, slowRequestThreshold options ≠ Given t) →
         threshold_of (spread defaultOptions options) = 1000%float)
    ∧ (∀ options t,
         slowRequestThreshold options = Given t →
         threshold_of (spread defaultOptions options) = t).
Proof.
  intros Hl.
  destruct (handler_unfold config logger env c next h inst Hl)
    as (rl & _ & _ & Hrun).
  eexists. split; [exact Hrun|]. split; [|split].
  - cbv zeta. intros s u.
    destruct (request_payload config c) as [p|e0]; [|done].
    set (s0 := next (set_logger rl c)).
    set (c1 := context_after (set_logger rl c) s0).
    destruct (outcome s0) as [u0|e1] eqn:Ho.
    2:{ simpl. intros [= <-]. congruence. }
    unfold on_success, formatted.
    rewrite !formatDuration_elapsed_ms.
    change (res_status c1) with (status_after s0).
    change c1 with (Context_ (req c) (status_after s0) (Some rl)).
    destruct (formatResponse config) as [| |f] eqn:Hf.
    + simpl. intros [= <-] _. exists rl. split; [done|].
      destruct (PrimFloat.ltb _ _); simpl; split_and!; done.
    + simpl. intros [= <-] _. exists rl. split; [done|].
      destruct (PrimFloat.ltb _ _); simpl; split_and!; done.
    + destruct (f (status_after s0)
                  (Context_ (req c) (status_after s0) (Some rl)))
        as [q|e] eqn:Hcall.
      * simpl. intros [= <-] _. exists rl. split; [done|].
        destruct (PrimFloat.ltb _ _); simpl; split_and!; try done;
          intros f' e [= <-]; congruence.
      * simpl. intros [= <-] _. exists rl.
        rewrite on_failure_context.
        split; [apply error_status_spec|].
        destruct (on_failure_events config rl (hrtime env) (hrtime_catch env)
                    (Context_ (req c) (status_after s0) (Some rl)) e)
          as [->|[q ->]];
          destruct (PrimFloat.ltb _ _); simpl; split_and!; try done;
          intros Hret; (destruct (Hret f) as [o Ho']; [done|congruence]).
  - intros options Hnone. unfold threshold_of, spread. simpl.
    destruct (slowRequestThreshold options) as [| |t]; [done..|].
    by destruct (Hnone t).
  - intros options t Ht. unfold threshold_of, spread. simpl. by rewrite Ht.
Qed.
End SlowRequests.

(** The middleware uses the logger it is given, or else one that it
    creates, at the configured level, in a fresh location. *)
Lemma observabilityMiddleware_logger LOG_LEVEL options
    (h : gmap positive Backend.instance) :
  ∃ l h',
    Middleware.observabilityMiddleware LOG_LEVEL options h
    = (HonoConfig.spread HonoConfig.defaultOptions options, l, h')
    ∧ match HonoConfig.logger options with
      | HonoConfig.Given l0 => l = l0 ∧ h' = h
      | _ => h !! l = None ∧ is_Some (h' !! l)
      end.
Proof.
  unfold Middleware.observabilityMiddleware.
  destruct (HonoConfig.logger options) as [| |l0]; simpl.
  - eexists _, _. split; [reflexivity|]. split.
    + apply not_elem_of_dom, is_fresh.
    + rewrite lookup_insert_eq. eauto.
  - eexists _, _. split; [reflexivity|]. split.
    + apply not_elem_of_dom, is_fresh.
    + rewrite lookup_insert_eq. eauto.
  - eauto.
Qed.

(** *** The middleware on sample requests *)

Lemma middleware_lifecycle_witness :
  ∃ r, Sample.serve Sample.with_formatters Sample.get_users Sample.ok_5ms
       = Some r
       ∧ Spec.lifecycle r
       ∧ Middleware.returned r = Return tt
       ∧ Middleware.trace r
         = [Middleware.Logged 2 "info"
              [("method", VStr "GET"); ("url", VStr "http://localhost/users?x=1");
               ("path", VStr "/users"); ("query", VRec [("x", VStr "1")]);
               ("tenant", VStr "acme")]
              "Incoming request";
            Middleware.Downstream;
            Middleware.Logged 2 "info" [("code", VNum 200)]
              "Request completed"].
Proof.
  unfold Sample.serve.
  edestruct (middleware_lifecycle (H := ref_platform)
               (Sample.middleware Sample.with_formatters).1.1
               (Sample.middleware Sample.with_formatters).1.2
               Sample.env Sample.get_users Sample.ok_5ms
               (Sample.middleware Sample.with_formatters).2)
    as (r & rl & s & Hr & Hs & -> & Hlife).
  - vm_compute. reflexivity.
  - intros _. vm_compute. eauto.
  - intros f Hf. vm_compute in Hf. injection Hf as <-. eauto.
  - intros f Hf. vm_compute in Hf. discriminate.
  - exists r. split; [exact Hr|].
    vm_compute in Hr. injection Hr as <-.
    destruct Hlife as [Hlife Hret].
    + intros u _ f Hf. vm_compute in Hf. injection Hf as <-. eauto.
    + intros e He. discriminate.
    + split; [exact Hlife|]. split; [exact Hret|reflexivity].
Defined.

(** Three requests for the absolute URL [http://localhost/users?x=1] on
    which a callback of the configuration throws. With a failing
    [getUserContext] the handler throws before it logs anything and
    before the downstream handler runs. With a failing response formatter
    the downstream handler returns, and the terminal entry is "Request
    failed". With a failing error formatter the downstream handler throws
    and no terminal entry is logged. *)
Lemma middleware_lifecycle_counterexample :
  (∃ r, Sample.serve Sample.with_failing_user_context Sample.get_users
          Sample.ok_5ms = Some r
        ∧ Middleware.trace r = []
        ∧ Middleware.returned r = Throw Sample.callback_error
        ∧ ¬ Spec.lifecycle r)
  ∧ (∃ r, Sample.serve Sample.with_failing_response_formatter
            Sample.get_users Sample.ok_10ms = Some r
          ∧ Middleware.settled r = Some (Sample.ok_10ms Sample.get_users)
          ∧ Spec.count "info" "Request completed" (Middleware.trace r) = 0%nat
          ∧ Spec.count "error" "Request failed" (Middleware.trace r) = 1%nat
          ∧ Middleware.returned r = Throw Sample.callback_error
          ∧ ¬ Spec.lifecycle r)
  ∧ (∃ r, Sample.serve Sample.with_failing_error_formatter
            Sample.get_users Sample.fails_2ms = Some r
          ∧ Middleware.settled r = Some (Sample.fails_2ms Sample.get_users)
          ∧ Spec.count "info" "Request completed" (Middleware.trace r) = 0%nat
          ∧ Spec.count "error" "Request failed" (Middleware.trace r) = 0%nat
          ∧ Middleware.returned r = Throw Sample.callback_error
          ∧ ¬ Spec.lifecycle r).
Proof.
  split_and!.
  - eexists. split; [vm_compute; reflexivity|]. split_and!; [done..|].
    intros (s & Hs & _)%lifecycle_counts. discriminate.
  - eexists. split; [vm_compute; reflexivity|].
    split_and!; [reflexivity..|].
    intros (s & Hs & _ & Hterm)%lifecycle_counts.
    injection Hs as <-. vm_compute in Hterm. discriminate.
  - eexists. split; [vm_compute; reflexivity|].
    split_and!; [reflexivity..|].
    intros (s & Hs & _ & Hterm)%lifecycle_counts.
    injection Hs as <-. vm_compute in Hterm. discriminate.
Qed.

Lemma middleware_failure_witness :
  ∃ r, Sample.serve Sample.at_info Sample.get_users Sample.fails_2ms
       = Some r
       ∧ Middleware.returned r = Throw Sample.test_error
       ∧ HonoConfig.res_status (Middleware.final_context r) = Some 500
       ∧ ∃ rl,
           filter (λ ev, Spec.has_level "error" ev = true) (Middleware.trace r)
           = [Middleware.Logged rl "error"
                [("err", Sample.test_error);
                 ("duration", VNum 2);
                 ("status", VNum 500);
                 ("method", VStr "GET");
                 ("path", VStr "/users")]
                "Request failed"].
Proof.
  unfold Sample.serve.
  edestruct (middleware_failure (H := ref_platform)
               (Sample.middleware Sample.at_info).1.1
               (Sample.middleware Sample.at_info).1.2
               Sample.env Sample.get_users Sample.fails_2ms
               (Sample.middleware Sample.at_info).2)
    as (r & Hr & Hfail).
  { vm_compute. reflexivity. }
  exists r. split; [exact Hr|].
  vm_compute in Hr. injection Hr as <-.
  destruct (Hfail (Sample.fails_2ms Sample.get_users) Sample.test_error
              eq_refl eq_refl)
    as (Hstatus & _ & rl & _ & Hdefault & _).
  destruct Hdefault as [Hret Herr]; [intros f; discriminate|].
  split; [exact Hret|]. split; [exact Hstatus|].
  exists rl. exact Herr.
Defined.

(** With an error formatter that throws, the downstream error
    [test_error] does not reach the caller, which gets the formatter's
    error, and no [error] entry is logged. *)
Lemma middleware_failure_counterexample :
  ∃ r, Sample.serve Sample.with_failing_error_formatter Sample.get_users
         Sample.fails_2ms = Some r
       ∧ Middleware.settled r = Some (Sample.fails_2ms Sample.get_users)
       ∧ Middleware.outcome (Sample.fails_2ms Sample.get_users)
         = Throw Sample.test_error
       ∧ Middleware.returned r = Throw Sample.callback_error
       ∧ Sample.callback_error ≠ Sample.test_error
       ∧ filter (λ ev, Spec.has_level "error" ev = true) (Middleware.trace r)
         = []
       ∧ ¬ Spec.failure r.
Proof.
  eexists. split; [vm_compute; reflexivity|].
  split_and!; [reflexivity..|discriminate|reflexivity|].
  intros Hfail.
  destruct (Hfail (Sample.fails_2ms Sample.get_users) Sample.test_error
              eq_refl eq_refl) as [Hret _].
  discriminate.
Qed.

Lemma middleware_slow_request_witness :
  ∃ r, Sample.serve Sample.with_threshold_1 Sample.get_users Sample.ok_10ms
       = Some r
       ∧ Spec.count "info" "Request completed" (Middleware.trace r) = 1%nat
       ∧ ∃ rl,
           filter (λ ev, Spec.has_level "warn" ev = true) (Middleware.trace r)
           = [Middleware.Logged rl "warn"
                [("duration", VNum 10); ("threshold", VNum 1)]
                "Slow request detected"].
Proof.
  unfold Sample.serve.
  edestruct (middleware_slow_request (H := ref_platform)
               (Sample.middleware Sample.with_threshold_1).1.1
               (Sample.middleware Sample.with_threshold_1).1.2
               Sample.env Sample.get_users Sample.ok_10ms
               (Sample.middleware Sample.with_threshold_1).2)
    as (r & Hr & Hslow & _).
  { vm_compute. reflexivity. }
  exists r. split; [exact Hr|].
  vm_compute in Hr. injection Hr as <-.
  destruct (Hslow (Sample.ok_10ms Sample.get_users) tt eq_refl eq_refl)
    as (rl & _ & Hwarn & _ & Hcompleted & _).
  split.
  - apply Hcompleted. intros f Hf. discriminate.
  - exists rl. apply Hwarn. reflexivity.
Defined.

(** With a response formatter that throws, a slow request that the
    downstream handler has answered gets its warning and no "Request
    completed" entry. *)
Lemma middleware_slow_request_counterexample :
  ∃ r, Sample.serve Sample.with_failing_response_formatter Sample.get_users
         Sample.ok_10ms = Some r
       ∧ Middleware.settled r = Some (Sample.ok_10ms Sample.get_users)
       ∧ length (filter (λ ev, Spec.has_level "warn" ev = true)
                   (Middleware.trace r)) = 1%nat
       ∧ Spec.count "info" "Request completed" (Middleware.trace r) = 0%nat
       ∧ ¬ Spec.slow_request 1 (Middleware.hrtime Sample.env) r.
Proof.
  eexists. split; [vm_compute; reflexivity|].
  split_and!; [reflexivity..|].
  intros Hslow.
  destruct (Hslow (Sample.ok_10ms Sample.get_users) tt eq_refl eq_refl)
    as [Hcount _].
  vm_compute in Hcount. discriminate.
Qed.

(** The comparison is one of doubles. With the threshold [0.3], that is
    the double [0x1.3333333333333p-2], which is below three tenths, a
    request of 300000 ns gets no warning, its duration being the same
    double; one of 300001 ns gets it. *)
Example slow_request_rounding :
  let threshold := 0x1.3333333333333p-2%float in
  let config :=
    HonoConfig.Options HonoConfig.Absent HonoConfig.Absent HonoConfig.Absent
      HonoConfig.Absent HonoConfig.Absent (HonoConfig.Given threshold)
      HonoConfig.Absent HonoConfig.Absent HonoConfig.Absent
      HonoConfig.Absent in
  Spec.exact threshold = Some (5404319552844595 # 18014398509481984)
  ∧ (5404319552844595 # 18014398509481984 < 300000 # 1000000)%Q
  ∧ HonoUtils.formatDuration 1000000000 1000300000 = threshold
  ∧ (Middleware.on_success config 2 1000000000 1000300000
       (HonoConfig.Context_ (HonoConfig.req Sample.get_users) (Some 200)
          (Some 2%positive))).1
    = [Middleware.Logged 2 "info"
         [("status", VNum 200); ("duration", VNum threshold)]
         "Request completed"]
  ∧ length (Middleware.on_success config 2 1000000000 1000300001
              (HonoConfig.Context_ (HonoConfig.req Sample.get_users)
                 (Some 200) (Some 2%positive))).1
    = 2%nat.
Proof. split_and!; reflexivity. Qed.

(** *** The scenarios of the specification *)

(** Scenario A: default configuration. *)
Example scenario_default :
  Middleware.trace <$> Sample.serve Sample.at_info Sample.get_users Sample.ok_5ms
  = Some [Middleware.Logged 2 "info"
            [("method", VStr "GET"); ("url", VStr "http://localhost/users?x=1");
             ("path", VStr "/users")]
            "Incoming request";
          Middleware.Downstream;
          Middleware.Logged 2 "info"
            [("status", VNum 200); ("duration", VNum 5)]
            "Request completed"].
Proof. reflexivity. Qed.

(** Scenario B: [includeQueryParams: true]. *)
Example scenario_query :
  ∃ r, Sample.serve Sample.with_query Sample.get_users Sample.ok_5ms = Some r
       ∧ ∃ l data, head (Middleware.trace r)
                   = Some (Middleware.Logged l "info" data "Incoming request")
                   ∧ Obj.get "query" data = Some (VRec [("x", VStr "1")]).
Proof. eexists. split; [reflexivity|]. eexists _, _. split; reflexivity. Qed.

(** Scenario E: [includeHeaders: true] and
    [redactHeaders: ['authorization']]. *)
Example scenario_headers :
  ∃ r, Sample.serve Sample.with_headers Sample.get_users Sample.ok_5ms = Some r
       ∧ ∃ l data, head (Middleware.trace r)
                   = Some (Middleware.Logged l "info" data "Incoming request")
                   ∧ Obj.get "headers" data
                     = Some (VRec [("authorization", VStr "[REDACTED]");
                                   ("x-test", VStr "value")]).
Proof. eexists. split; [reflexivity|]. eexists _, _. split; reflexivity. Qed.

(** The classification of the package's tests. *)
Example isError_cases :
  Errors.isError (VRec [("message", VStr "x")]) = true
  ∧ Errors.isError (VRec []) = false
  ∧ Errors.isError VNull = false
  ∧ Errors.isError VUndefined = false
  ∧ Errors.isError (VStr "error") = false
  ∧ Errors.isError (VNum 42) = false
  ∧ Errors.isError Sample.test_error = true.
Proof. split_and!; reflexivity. Qed.

(* ===================================================================== *)
(** * Part III: further properties of the code                            *)
(* ===================================================================== *)

(** ** More on property lists *)

Section MoreObjLemmas.
Context {V : Type}.
Implicit Types (o : obj V) (k : string) (v : V).

Lemma elem_of_get k v o :
  NoDup (Obj.keys o) → (k, v) ∈ o → Obj.get k o = Some v.
Proof.
  unfold Obj.keys. induction o as [|[k0 v0] o IH]; simpl.
  - intros _ Hin. inversion Hin.
  - intros [Hk0 Hnd]%NoDup_cons [[= -> ->]|Hin]%elem_of_cons.
    + by rewrite decide_True.
    + rewrite decide_False; [auto|].
      intros ->. apply Hk0. apply list_elem_of_fmap. by exists (k0, v).
Qed.

Lemma get_elem_of k v o : Obj.get k o = Some v → (k, v) ∈ o.
Proof.
  induction o as [|[k0 v0] o IH]; simpl; [done|].
  destruct (decide (k = k0)) as [->|Hne].
  - intros [= ->]. left.
  - intros Hg. right. auto.
Qed.

Lemma define_fresh k v o :
  k ∉ Obj.keys o → Obj.define k v o = o ++ [(k, v)].
Proof.
  unfold Obj.keys. induction o as [|[k0 v0] o IH]; simpl; [done|].
  intros Hk. apply not_elem_of_cons in Hk as [Hne Hk].
  rewrite decide_False by done. by rewrite IH.
Qed.

Lemma get_fmap_values {W} (f : V → W) k o :
  Obj.get k (prod_map id f <$> o) = f <$> Obj.get k o.
Proof.
  induction o as [|[k0 v0] o IH]; simpl; [done|].
  by destruct (decide (k = k0)).
Qed.

Lemma keys_fmap_values {W} (f : V → W) o :
  Obj.keys (prod_map id f <$> o) = Obj.keys o.
Proof.
  unfold Obj.keys. rewrite <- list_fmap_compose. by apply list_fmap_ext; intros ? [].
Qed.
End MoreObjLemmas.

(** ** More on header redaction *)

Section GetHeadersMore.
Context `{Platform}.
Implicit Types (headers : obj string) (D : list string) (k v : string).
Import HonoUtils.

Lemma getHeaders_denied_value headers D k v :
  Obj.get k (getHeaders headers D) = Some v → k ∈ D → v = "[REDACTED]".
Proof.
  intros Hget Hk. rewrite getHeaders_unfold in Hget.
  destruct (decide (k = "__proto__")) as [->|Hp].
  - by rewrite header_fold_proto in Hget.
  - rewrite header_fold_get in Hget by done.
    destruct (Spec.deciding_entry k headers); [|done].
    rewrite bool_decide_eq_true_2 in Hget by done. congruence.
Qed.

Lemma getHeaders_NoDup headers D : NoDup (Obj.keys (getHeaders headers D)).
Proof. apply header_fold_NoDup, NoDup_nil_2. Qed.

Lemma getHeaders_no_proto headers D :
  "__proto__" ∉ Obj.keys (getHeaders headers D).
Proof.
  rewrite elem_of_keys_get, getHeaders_unfold, header_fold_proto.
  by intros [? ?].
Qed.

Lemma getHeaders_key_origin headers D k :
  k ∈ Obj.keys (getHeaders headers D) →
  ∃ k0 v0, (k0, v0) ∈ headers ∧ toLowerCase k0 = k.
Proof.
  intros [v Hget]%elem_of_keys_get. rewrite getHeaders_unfold in Hget.
  destruct (decide (k = "__proto__")) as [->|Hp].
  - by rewrite header_fold_proto in Hget.
  - rewrite header_fold_get in Hget by done.
    destruct (Spec.deciding_entry k headers) as [[k0 v0]|] eqn:Hd; [|done].
    apply deciding_entry_Some in Hd as [Hin Hk]. eauto.
Qed.

(** X1. Whatever the input, also with keys that differ only in case: no value
    stored under a key of the deny-list is anything but the marker; the
    keys of the result are distinct, each the lower-cased form of a key of
    the input, and [__proto__] is never one of them. *)
Theorem getHeaders_no_leak headers D :
  (∀ k v, Obj.get k (getHeaders headers D) = Some v →
          k ∈ D → v = "[REDACTED]")
  ∧ NoDup (Obj.keys (getHeaders headers D))
  ∧ ("__proto__" ∉ Obj.keys (getHeaders headers D))
  ∧ (∀ k, k ∈ Obj.keys (getHeaders headers D) →
          ∃ k0 v0, (k0, v0) ∈ headers ∧ toLowerCase k0 = k).
Proof.
  split_and!.
  - apply getHeaders_denied_value.
  - apply getHeaders_NoDup.
  - apply getHeaders_no_proto.
  - apply getHeaders_key_origin.
Qed.

Lemma header_fold_unmatched D acc headers :
  (∀ kv, kv ∈ headers → toLowerCase kv.1 ∉ D) →
  foldl (header_step D) acc headers = foldl (header_step []) acc headers.
Proof.
  revert acc. induction headers as [|kv headers IH]; intros acc Hno; [done|].
  simpl. rewrite IH by (intros kv' Hin; apply Hno; by right).
  f_equal. unfold header_step.
  rewrite (bool_decide_eq_false_2 (toLowerCase kv.1 ∈ D))
    by (apply Hno; left).
  rewrite (bool_decide_eq_false_2 (toLowerCase kv.1 ∈ []));
    [done|]. intros Hin. inversion Hin.
Qed.

(** X2. The deny-list is compared with lower-cased header names as it is: when
    lower-casing is idempotent, a deny-list whose entries are all changed by
    lower-casing (such as [Authorization]) redacts nothing. *)
Theorem getHeaders_denylist_case headers D :
  (∀ s, toLowerCase (toLowerCase s) = toLowerCase s) →
  (∀ d, d ∈ D → toLowerCase d ≠ d) →
  getHeaders headers D = getHeaders headers [].
Proof.
  intros Hidem HD. rewrite !getHeaders_unfold.
  apply header_fold_unmatched. intros kv _ Hin.
  apply (HD _ Hin). apply Hidem.
Qed.

Lemma header_fold_append D acc l :
  NoDup (Obj.keys acc ++ Obj.keys l) →
  (∀ k v, (k, v) ∈ l →
     k ≠ "__proto__" ∧ toLowerCase k = k ∧ (k ∈ D → v = "[REDACTED]")) →
  foldl (header_step D) acc l = acc ++ l.
Proof.
  revert acc. induction l as [|[k v] l IH]; intros acc Hnd Hl.
  - by rewrite app_nil_r.
  - simpl. destruct (Hl k v) as (Hp & Hk & Hv); [left|].
    assert (Hstep : header_step D acc (k, v) = acc ++ [(k, v)]).
    { unfold header_step. simpl. rewrite Hk.
      assert (Hfresh : k ∉ Obj.keys acc).
      { intros Hin. apply NoDup_app in Hnd as (_ & Hdisj & _).
        apply (Hdisj k Hin). left. }
      case_bool_decide as HkD.
      - rewrite (Hv HkD). unfold Obj.assign. rewrite decide_False by done.
        rewrite define_fresh by done. by rewrite <- (Hv HkD).
      - unfold Obj.assign. rewrite decide_False by done.
        by apply define_fresh. }
    rewrite Hstep, IH.
    + by rewrite <- app_assoc.
    + unfold Obj.keys in *. rewrite fmap_app, <- app_assoc. exact Hnd.
    + intros k' v' Hin. apply Hl. by right.
Qed.

(** X3. Redacting twice is redacting once, when lower-casing is idempotent. *)
Theorem getHeaders_idempotent headers D :
  (∀ s, toLowerCase (toLowerCase s) = toLowerCase s) →
  getHeaders (getHeaders headers D) D = getHeaders headers D.
Proof.
  intros Hidem.
  rewrite (getHeaders_unfold (getHeaders headers D)).
  rewrite header_fold_append; [done|apply getHeaders_NoDup|].
  intros k v Hin.
  assert (Hk : k ∈ Obj.keys (getHeaders headers D)).
  { apply list_elem_of_fmap. by exists (k, v). }
  split_and!.
  - intros ->. by apply getHeaders_no_proto in Hk.
  - destruct (getHeaders_key_origin headers D k Hk) as (k0 & v0 & _ & <-).
    apply Hidem.
  - intros HkD. apply (getHeaders_denied_value headers D k v); [|done].
    apply elem_of_get; [apply getHeaders_NoDup|done].
Qed.
End GetHeadersMore.

Lemma lower_ascii_idempotent c :
  Ref.lower_ascii (Ref.lower_ascii c) = Ref.lower_ascii c.
Proof. by destruct c as [[] [] [] [] [] [] [] []]. Qed.

Lemma lower_string_idempotent s :
  Ref.lower_string (Ref.lower_string s) = Ref.lower_string s.
Proof.
  induction s as [|c s IH]; [done|].
  simpl. by rewrite lower_ascii_idempotent, IH.
Qed.

Lemma getHeaders_denylist_case_witness :
  HonoUtils.getHeaders (H := ref_platform)
    [("Authorization", "Bearer x"); ("X-Test", "value")] ["Authorization"]
  = HonoUtils.getHeaders (H := ref_platform)
      [("Authorization", "Bearer x"); ("X-Test", "value")] [].
Proof.
  apply (getHeaders_denylist_case (H := ref_platform)).
  - apply lower_string_idempotent.
  - intros d ->%list_elem_of_singleton. vm_compute. discriminate.
Defined.

Lemma getHeaders_idempotent_witness :
  HonoUtils.getHeaders (H := ref_platform)
    (HonoUtils.getHeaders (H := ref_platform)
       [("Authorization", "Bearer x"); ("X-Test", "value")] ["authorization"])
    ["authorization"]
  = HonoUtils.getHeaders (H := ref_platform)
      [("Authorization", "Bearer x"); ("X-Test", "value")] ["authorization"].
Proof.
  apply (getHeaders_idempotent (H := ref_platform)).
  apply lower_string_idempotent.
Defined.

(** ** More on query parameters *)

Section GetQueryParamsMore.
Context `{Platform}.
Import HonoUtils.

Lemma query_fold_NoDup (entries : list (string * string)) acc :
  NoDup (Obj.keys acc) →
  NoDup (Obj.keys (foldl (λ params kv, Obj.assign kv.1 kv.2 params) acc entries)).
Proof.
  revert acc. induction entries as [|kv entries IH]; intros acc Hnd; [done|].
  simpl. by apply IH, NoDup_keys_assign.
Qed.

(** X4. On a URL that parses, [getQueryParams] returns an object with distinct
    keys, each of them a name of the query; every name other than
    [__proto__] maps to the value of its last occurrence, and a name that
    does not occur in the query is not a key. *)
Theorem getQueryParams_last_value url entries :
  url_searchParams url = Some entries →
  ∃ params,
    getQueryParams url = Return params
    ∧ NoDup (Obj.keys params)
    ∧ (∀ k, k ≠ "__proto__" → Obj.get k params = Spec.last_value k entries)
    ∧ (∀ k, k ∈ Obj.keys params → k ∈ entries.*1)
    ∧ (∀ k, k ∉ entries.*1 → Obj.get k params = None).
Proof.
  intros Hu. unfold getQueryParams. rewrite Hu. eexists. split; [done|].
  assert (Hget : ∀ k, k ≠ "__proto__" →
            Obj.get k (foldl (λ params kv, Obj.assign kv.1 kv.2 params)
                         [] entries)
            = Spec.last_value k entries).
  { intros k Hk. rewrite query_fold_get by done.
    by destruct (Spec.last_value k entries). }
  assert (Hkeys : ∀ k, k ∈ Obj.keys
            (foldl (λ params kv, Obj.assign kv.1 kv.2 params) [] entries) →
            k ∈ entries.*1).
  { intros k [v Hv]%elem_of_keys_get.
    destruct (decide (k = "__proto__")) as [->|Hk].
    - by rewrite query_fold_proto in Hv.
    - rewrite Hget in Hv by done. unfold Spec.last_value in Hv.
      destruct (last _) as [[k' v']|] eqn:Hl; [|done].
      apply last_Some_elem_of, list_elem_of_filter in Hl as [Heq Hin].
      simpl in Heq. subst k'. apply list_elem_of_fmap. by exists (k, v'). }
  split_and!.
  - apply query_fold_NoDup, NoDup_nil_2.
  - exact Hget.
  - exact Hkeys.
  - intros k Hk. destruct (Obj.get k _) as [v|] eqn:Hv; [|done].
    destruct Hk. apply Hkeys, elem_of_keys_get. eauto.
Qed.
End GetQueryParamsMore.

Lemma getQueryParams_last_value_witness :
  ∃ params,
    HonoUtils.getQueryParams (H := ref_platform)
      "http://localhost/search?q=a&page=1&q=b" = Return params
    ∧ NoDup (Obj.keys params)
    ∧ (∀ k, k ≠ "__proto__" →
         Obj.get k params
         = Spec.last_value k [("q", "a"); ("page", "1"); ("q", "b")])
    ∧ (∀ k, k ∈ Obj.keys params →
            k ∈ [("q", "a"); ("page", "1"); ("q", "b")].*1)
    ∧ (∀ k, k ∉ [("q", "a"); ("page", "1"); ("q", "b")].*1 →
            Obj.get k params = None).
Proof.
  apply (getQueryParams_last_value (H := ref_platform)). reflexivity.
Defined.

(** ** More on error serialization *)

Section ErrorSerializerMore.
Context `{Platform}.
Import Errors.

Lemma member_VRec k (o : obj value) :
  member k (VRec o) = default VUndefined (Obj.get k o).
Proof.
  unfold VRec, member. rewrite get_fmap_values.
  by destruct (Obj.get k o).
Qed.

Lemma own_enumerable_VRec k (o : obj value) :
  Spec.own_enumerable (VRec o) k = bool_decide (k ∈ Obj.keys o).
Proof.
  unfold VRec, Spec.own_enumerable. apply bool_decide_ext.
  assert (Hall : filter (λ kp : string * property value, enumerable kp.2 = true)
            (prod_map id (Property true) <$> o)
          = prod_map id (Property true) <$> o).
  { induction o as [|[k0 v0] o IH]; [done|].
    rewrite fmap_cons, filter_cons. simpl. by rewrite IH. }
  by rewrite Hall, keys_fmap_values.
Qed.

Lemma isError_VRec (o : obj value) :
  isError (VRec o) = bool_decide ("message" ∈ Obj.keys o).
Proof.
  unfold isError, VRec. simpl. unfold Obj.has.
  rewrite keys_fmap_values, orb_false_r.
  apply bool_decide_ext. done.
Qed.

Lemma copy_fold_NoDup err acc ks :
  NoDup (Obj.keys (fields acc)) →
  NoDup (Obj.keys (fields (foldl (copy_step err) acc ks))).
Proof.
  revert acc. induction ks as [|x ks IH]; intros acc Hnd; [done|].
  simpl. apply IH. unfold copy_step.
  destruct (_ && _); [by apply NoDup_keys_assign | done].
Qed.

Lemma errorSerializer_no_proto v :
  "__proto__" ∉ Obj.keys (fields (errorSerializer v)).
Proof.
  destruct (isError v) eqn:He.
  - rewrite elem_of_keys_get, errorSerializer_get, copied_own by done.
    rewrite (bool_decide_eq_true_2 ("__proto__" = "__proto__")) by done.
    rewrite andb_false_r. simpl. by intros [? ?].
  - unfold errorSerializer. rewrite He. simpl.
    by intros ?%list_elem_of_singleton.
Qed.

(** X5. The serialized form is a well-formed record: its keys are distinct and
    never include [__proto__]; for an error-like value they include [type]
    and [message] but never [name]; for any other value the only key is
    [error]. *)
Theorem errorSerializer_keys v :
  NoDup (Obj.keys (fields (errorSerializer v)))
  ∧ ("__proto__" ∉ Obj.keys (fields (errorSerializer v)))
  ∧ (isError v = true →
       ("name" ∉ Obj.keys (fields (errorSerializer v)))
       ∧ "type" ∈ Obj.keys (fields (errorSerializer v))
       ∧ "message" ∈ Obj.keys (fields (errorSerializer v)))
  ∧ (isError v = false → Obj.keys (fields (errorSerializer v)) = ["error"]).
Proof.
  split; [|split; [apply errorSerializer_no_proto|]].
  - destruct (isError v) eqn:He.
    + rewrite errorSerializer_error by done. apply copy_fold_NoDup.
      destruct (truthy _); apply (bool_decide_unpack _); vm_compute; done.
    + unfold errorSerializer. rewrite He. simpl. apply NoDup_singleton.
  - split.
    + intros He. split_and!.
      * rewrite elem_of_keys_get, errorSerializer_get, copied_own by done.
        rewrite andb_false_r. simpl. by intros [? ?].
      * rewrite elem_of_keys_get, errorSerializer_get by done.
        destruct (Spec.copied v "type"); simpl; eauto.
      * rewrite elem_of_keys_get, errorSerializer_get by done.
        destruct (Spec.copied v "message"); simpl; eauto.
    + intros He. unfold errorSerializer. by rewrite He.
Qed.

(** X6. Serializing the serialized form of an error-like value changes
    nothing when the first pass has left the prototype of an object
    literal, that is, when the value has no own enumerable field
    [__proto__] that holds an object or [null]: the result is again
    error-like, the second pass leaves that prototype too and gives every
    key the value the first pass gave it. *)
Theorem errorSerializer_idempotent e :
  isError e = true →
  prototype (errorSerializer e) = None →
  isError (serialized_value (errorSerializer e)) = true
  ∧ prototype (errorSerializer (serialized_value (errorSerializer e))) = None
  ∧ ∀ k, Obj.get k (fields (errorSerializer
                              (serialized_value (errorSerializer e))))
         = Obj.get k (fields (errorSerializer e)).
Proof.
  intros He Hproto. unfold serialized_value. rewrite Hproto.
  assert (Hmsg : Obj.get "message" (fields (errorSerializer e))
                 = Some (member "message" e)).
  { rewrite errorSerializer_get, copied_own by done.
    by rewrite andb_false_r. }
  assert (Htype : is_Some (Obj.get "type" (fields (errorSerializer e)))).
  { rewrite errorSerializer_get by done.
    destruct (Spec.copied e "type"); simpl; eauto. }
  assert (He2 : isError (VRec (fields (errorSerializer e))) = true).
  { rewrite isError_VRec. apply bool_decide_eq_true.
    apply elem_of_keys_get. eauto. }
  split; [done|]. split.
  { rewrite errorSerializer_prototype, own_enumerable_VRec by done.
    rewrite bool_decide_eq_false_2; [done|].
    apply errorSerializer_no_proto. }
  intros k.
  rewrite (errorSerializer_get (VRec (fields (errorSerializer e))) k He2).
  rewrite copied_own, own_enumerable_VRec, !member_VRec.
  destruct (decide (k = "__proto__")) as [->|Hp].
  { rewrite andb_false_r. simpl.
    rewrite errorSerializer_get, copied_own by done.
    by rewrite andb_false_r. }
  rewrite (bool_decide_eq_false_2 (k = "__proto__")) by done.
  destruct (decide (k = "name")) as [->|Hn].
  { simpl. rewrite andb_false_r. simpl.
    rewrite errorSerializer_get, copied_own by done.
    by rewrite andb_false_r. }
  destruct (decide (k = "message")) as [->|Hm].
  { simpl. rewrite andb_false_r. simpl. by rewrite Hmsg. }
  destruct (decide (k = "stack")) as [->|Hs].
  { simpl. rewrite andb_false_r. simpl.
    destruct (Obj.get "stack" (fields (errorSerializer e))) as [x|] eqn:Hx;
      simpl.
    - revert Hx. rewrite errorSerializer_get, copied_own by done.
      rewrite andb_false_r. simpl.
      destruct (truthy (member "stack" e)) eqn:Ht; [|done].
      intros [= <-]. by rewrite Ht.
    - done. }
  rewrite (bool_decide_eq_false_2 (k ∈ ["name"; "message"; "stack"]))
    by (rewrite !elem_of_cons; intros [?|[?|[?|Hin]]]; [done..|inversion Hin]).
  simpl. rewrite !andb_true_r.
  case_bool_decide as Hk.
  - apply elem_of_keys_get in Hk as [x Hx]. by rewrite Hx.
  - destruct (Obj.get k (fields (errorSerializer e))) as [x|] eqn:Hx.
    { destruct Hk. apply elem_of_keys_get. eauto. }
    destruct (decide (k = "type")) as [->|Ht]; [|done].
    destruct Htype as [y Hy]. congruence.
Qed.
End ErrorSerializerMore.

Lemma errorSerializer_idempotent_witness :
  Errors.errorSerializer (H := ref_platform)
    (Errors.serialized_value
       (Errors.errorSerializer (H := ref_platform) Sample.test_error))
  = Errors.errorSerializer (H := ref_platform) Sample.test_error
  ∧ ∀ k, Obj.get k
           (Errors.fields
              (Errors.errorSerializer (H := ref_platform)
                 (Errors.serialized_value
                    (Errors.errorSerializer (H := ref_platform)
                       Sample.test_error))))
         = Obj.get k
             (Errors.fields
                (Errors.errorSerializer (H := ref_platform)
                   Sample.test_error)).
Proof.
  split; [reflexivity|].
  apply (errorSerializer_idempotent (H := ref_platform) Sample.test_error);
    reflexivity.
Defined.

(** The hypothesis on the prototype is needed. The value
    [JSON.parse('{"message":"m","__proto__":{"stack":"zzz"}}')] has an
    own enumerable field [__proto__]; the first pass makes its value the
    prototype of the result, through which the second pass finds a stack
    and makes it an own field. *)
Example errorSerializer_prototype_replaced :
  let e := VRec [("message", VStr "m");
                 ("__proto__", VRec [("stack", VStr "zzz")])] in
  Errors.errorSerializer (H := ref_platform) e
  = Errors.Serialized [("type", VUndefined); ("message", VStr "m")]
      (Some (VRec [("stack", VStr "zzz")]))
  ∧ Errors.errorSerializer (H := ref_platform)
      (Errors.serialized_value (Errors.errorSerializer (H := ref_platform) e))
    = Errors.Serialized
        [("type", VUndefined); ("message", VStr "m"); ("stack", VStr "zzz")]
        None.
Proof. split; reflexivity. Qed.

Lemma errorSerializer_keys_witness :
  Obj.keys (Errors.fields
              (Errors.errorSerializer (H := ref_platform) (VStr "boom")))
  = ["error"]
  ∧ ("name" ∉ Obj.keys (Errors.fields
                          (Errors.errorSerializer (H := ref_platform)
                             Sample.test_error))).
Proof.
  split.
  - apply (errorSerializer_keys (H := ref_platform) (VStr "boom")). reflexivity.
  - apply (errorSerializer_keys (H := ref_platform) Sample.test_error).
    reflexivity.
Defined.

(** ** More on context helpers *)

Section ContextHelpers.
Implicit Types (h : gmap positive Backend.instance) (l : positive).

(** X8. [withRequestContext] derives a fresh child whose [requestId] binding is
    the given id when that is a non-empty string and a generated id
    otherwise; the binding replaces a [requestId] that the parent had, every
    other binding of the parent is kept, and the rest of the heap, the
    parent included, is unchanged. *)
Theorem withRequestContext_binding h l inst (requestId : option string)
    (now : N) (random36 : string) :
  h !! l = Some inst →
  ∃ c child,
    ContextUtils.withRequestContext l requestId now random36 h
    = Some (c, <[c := child]> h)
    ∧ h !! c = None
    ∧ Backend.options child = Backend.options inst
    ∧ Obj.get "requestId" (Backend.bindings child)
      = Some (VStr (match requestId with
                    | Some id =>
                        if decide (id = "")
                        then ContextUtils.generateRequestId now random36
                        else id
                    | None => ContextUtils.generateRequestId now random36
                    end))
    ∧ (∀ k, k ≠ "requestId" →
         Obj.get k (Backend.bindings child) = Obj.get k (Backend.bindings inst)).
Proof.
  intros Hl. unfold ContextUtils.withRequestContext,
    ContextUtils.createContextLogger.
  set (id := match requestId with
             | Some id => if decide (id = "")
                          then ContextUtils.generateRequestId now random36
                          else id
             | None => ContextUtils.generateRequestId now random36
             end).
  destruct (child_spec h l inst [("requestId", VStr id)] Hl)
    as (c & Hchild & Hfresh & _).
  eexists c, _. split; [exact Hchild|]. split_and!; try done.
  - cbn [Backend.bindings]. rewrite get_spread. done.
  - intros k Hk. cbn [Backend.bindings]. rewrite get_spread.
    rewrite filter_cons, filter_nil. simpl.
    by destruct (decide ("requestId" = k)); [congruence|].
Qed.

(** X9. [withUserContext] and [withTraceContext] compose in either order: both
    orders give a logger that binds [userId] and [traceId] to the given
    values and agrees with the parent on every other key. *)
Theorem user_trace_context_commute h l inst (userId traceId : string) :
  h !! l = Some inst →
  ∃ u hu ut hut t ht tu htu iut itu,
    ContextUtils.withUserContext l userId h = Some (u, hu)
    ∧ ContextUtils.withTraceContext u traceId hu = Some (ut, hut)
    ∧ ContextUtils.withTraceContext l traceId h = Some (t, ht)
    ∧ ContextUtils.withUserContext t userId ht = Some (tu, htu)
    ∧ hut !! ut = Some iut ∧ htu !! tu = Some itu
    ∧ hut !! l = Some inst ∧ htu !! l = Some inst
    ∧ (∀ k, Obj.get k (Backend.bindings iut) = Obj.get k (Backend.bindings itu))
    ∧ Obj.get "userId" (Backend.bindings iut) = Some (VStr userId)
    ∧ Obj.get "traceId" (Backend.bindings iut) = Some (VStr traceId)
    ∧ (∀ k, k ≠ "userId" → k ≠ "traceId" →
         Obj.get k (Backend.bindings iut) = Obj.get k (Backend.bindings inst)).
Proof.
  intros Hl.
  unfold ContextUtils.withUserContext, ContextUtils.withTraceContext,
    ContextUtils.createContextLogger.
  destruct (child_spec h l inst [("userId", VStr userId)] Hl)
    as (u & Hu & Hufresh & Hul).
  set (iu := Backend.Instance_ (Backend.options inst)
               (Obj.spread (Backend.bindings inst) [("userId", VStr userId)]))
    in *.
  destruct (child_spec (<[u := iu]> h) u iu [("traceId", VStr traceId)]
              (lookup_insert_eq _ _ _))
    as (ut & Hut & Hutfresh & _).
  destruct (child_spec h l inst [("traceId", VStr traceId)] Hl)
    as (t & Ht & Htfresh & Htl).
  set (it := Backend.Instance_ (Backend.options inst)
               (Obj.spread (Backend.bindings inst) [("traceId", VStr traceId)]))
    in *.
  destruct (child_spec (<[t := it]> h) t it [("userId", VStr userId)]
              (lookup_insert_eq _ _ _))
    as (tu & Htu & Htufresh & _).
  eexists u, _, ut, _, t, _, tu, _, _, _.
  split; [exact Hu|]. split; [exact Hut|].
  split; [exact Ht|]. split; [exact Htu|].
  split; [apply lookup_insert_eq|]. split; [apply lookup_insert_eq|].
  assert (Hutl : ut ≠ l).
  { intros ->. rewrite lookup_insert_ne in Hutfresh by done. congruence. }
  assert (Htul : tu ≠ l).
  { intros ->. rewrite lookup_insert_ne in Htufresh by done. congruence. }
  split; [by rewrite !lookup_insert_ne|].
  split; [by rewrite !lookup_insert_ne|].
  cbn [Backend.bindings iu it]. split_and!.
  - intros k. rewrite !get_spread, !filter_cons, !filter_nil. simpl.
    destruct (decide ("traceId" = k)) as [Htk|Htk];
      destruct (decide ("userId" = k)) as [Huk|Huk]; simpl; [|done..].
    congruence.
  - rewrite !get_spread. done.
  - rewrite !get_spread. done.
  - intros k Hk1 Hk2. rewrite !get_spread, !filter_cons, !filter_nil. simpl.
    destruct (decide ("traceId" = k)); [congruence|].
    by destruct (decide ("userId" = k)); [congruence|].
Qed.
End ContextHelpers.

Lemma withRequestContext_binding_witness :
  ∃ c child,
    ContextUtils.withRequestContext (Logger.createLogger None [] ∅).1
      (Some "abc-123") 1700000000000 "0.4fzyo82mvyr"
      (Logger.createLogger None [] ∅).2
    = Some (c, <[c := child]> (Logger.createLogger None [] ∅).2)
    ∧ Obj.get "requestId" (Backend.bindings child) = Some (VStr "abc-123").
Proof.
  destruct (withRequestContext_binding (Logger.createLogger None [] ∅).2
              (Logger.createLogger None [] ∅).1
              (Backend.Instance_ (Logger.mergedOptions None []) [])
              (Some "abc-123") 1700000000000 "0.4fzyo82mvyr")
    as (c & child & Hw & _ & _ & Hid & _).
  - reflexivity.
  - exists c, child. split; [exact Hw|exact Hid].
Defined.

Lemma user_trace_context_commute_witness :
  ∃ u hu ut hut iut,
    ContextUtils.withUserContext (Logger.createLogger None [] ∅).1 "456"
      (Logger.createLogger None [] ∅).2 = Some (u, hu)
    ∧ ContextUtils.withTraceContext u "trace-9" hu = Some (ut, hut)
    ∧ hut !! ut = Some iut
    ∧ Obj.get "userId" (Backend.bindings iut) = Some (VStr "456")
    ∧ Obj.get "traceId" (Backend.bindings iut) = Some (VStr "trace-9").
Proof.
  destruct (user_trace_context_commute (Logger.createLogger None [] ∅).2
              (Logger.createLogger None [] ∅).1
              (Backend.Instance_ (Logger.mergedOptions None []) [])
              "456" "trace-9")
    as (u & hu & ut & hut & t & ht & tu & htu & iut & itu
        & Hu & Hut & _ & _ & Hiut & _ & _ & _ & _ & Huid & Htid & _).
  - reflexivity.
  - exists u, hu, ut, hut, iut. split_and!; assumption.
Defined.

(** ** The request log context *)

Section AssignFolds.
Context {V : Type}.
Implicit Types (o : obj V) (k : string).

Lemma assign_fold_get (entries : obj V) o k :
  k ≠ "__proto__" →
  Obj.get k (foldl (λ acc kv, Obj.assign kv.1 kv.2 acc) o entries)
  = match last (filter (λ kv, kv.1 = k) entries) with
    | Some kv => Some kv.2
    | None => Obj.get k o
    end.
Proof.
  intros Hk. induction entries as [|kv entries IH] using rev_ind; [done|].
  rewrite foldl_snoc, filter_app, filter_cons, filter_nil.
  destruct (decide (kv.1 = k)) as [Heq|Hne].
  - rewrite last_snoc. rewrite <- Heq at 1.
    rewrite get_assign by (by rewrite Heq). by rewrite decide_True.
  - rewrite app_nil_r, <- IH. unfold Obj.assign.
    destruct (decide (kv.1 = "__proto__")); [done|].
    rewrite get_define. by rewrite decide_False.
Qed.

Lemma get_fromEntries_elem (l : obj V) k v :
  Obj.get k (Obj.fromEntries l) = Some v → (k, v) ∈ l.
Proof.
  unfold Obj.fromEntries. rewrite get_spread.
  destruct (last _) as [[k' v']|] eqn:Hl; [|done].
  apply last_Some_elem_of, list_elem_of_filter in Hl as [Heq Hin].
  simpl in *. by intros [= <-]; subst.
Qed.

Lemma keys_fromEntries_elem (l : obj V) k :
  k ∈ Obj.keys (Obj.fromEntries l) → ∃ v, (k, v) ∈ l.
Proof. intros [v Hv]%elem_of_keys_get. eauto using get_fromEntries_elem. Qed.
End AssignFolds.

Section RequestPayload.
Context `{Platform}.
Import HonoConfig Middleware.


(** X11. The headers that reach the log. When [includeHeaders] is truthy and no
    custom context or formatter is configured, the log context has a
    [headers] record in which every value under a name of the effective
    deny-list is the marker, every name is the lower-cased name of a request
    header, and, if [includeHeaders] is a list, every name is on that
    list. *)
Theorem logged_headers_redacted config c p :
  include_truthy (includeHeaders config) = true →
  (∀ f, getUserContext config ≠ Given f) →
  (∀ f, formatRequest config ≠ Given f) →
  request_payload config c = Return p →
  ∃ hs : obj string,
    Obj.get "headers" p = Some (VRec (prod_map id VStr <$> hs))
    ∧ (∀ k v, Obj.get k hs = Some v →
              k ∈ nullish (redactHeaders config) [] → v = "[REDACTED]")
    ∧ (∀ names, includeHeaders config = Given (IncludeList names) →
                ∀ k, k ∈ Obj.keys hs → k ∈ names)
    ∧ (∀ k, k ∈ Obj.keys hs →
            ∃ k0 v0, (k0, v0) ∈ header (req c)
                     ∧ toLowerCase (toLowerCase k0) = k).
Proof.
  intros Hinc Hu Hf. unfold request_payload. rewrite Hinc.
  set (D := nullish (redactHeaders config) []).
  set (lowered := (λ kv : string * string, (toLowerCase kv.1, kv.2))
                    <$> header (req c)).
  set (hs0 := HonoUtils.getHeaders (Obj.fromEntries lowered) D).
  set (hs := match match includeHeaders config with
                   | Given (IncludeList names) => Some names
                   | _ => None
                   end with
             | Some names =>
                 Obj.fromEntries (filter (λ kv, kv.1 ∈ names) hs0)
             | None => hs0
             end).
  assert (Hbase : Obj.assign "headers" (VRec (prod_map id VStr <$> hs))
            [("method", VStr (method (req c))); ("url", VStr (url (req c)));
             ("path", VStr (path (req c)))]
          = [("method", VStr (method (req c))); ("url", VStr (url (req c)));
             ("path", VStr (path (req c)));
             ("headers", VRec (prod_map id VStr <$> hs))]) by reflexivity.
  rewrite Hbase. clear Hbase.
  assert (Hsub : ∀ k v, Obj.get k hs = Some v → Obj.get k hs0 = Some v).
  { intros k v. unfold hs.
    destruct (includeHeaders config) as [| |[b|names]]; try done.
    intros Hin%get_fromEntries_elem.
    apply list_elem_of_filter in Hin as [_ Hin].
    apply elem_of_get; [apply getHeaders_NoDup|done]. }
  intros Hp. exists hs. split_and!.
  - destruct (getUserContext config) as [| |f]; try (by destruct (Hu f));
      destruct (formatRequest config) as [| |g]; try (by destruct (Hf g));
      destruct (flag_truthy (includeQueryParams config));
      try destruct (HonoUtils.getQueryParams (url (req c)));
      try discriminate; injection Hp as <-; reflexivity.
  - intros k v Hk HkD. apply Hsub in Hk.
    by apply (getHeaders_denied_value (Obj.fromEntries lowered) D k v).
  - intros names Hnames k Hk. unfold hs in Hk. rewrite Hnames in Hk.
    apply keys_fromEntries_elem in Hk as [v Hin].
    by apply list_elem_of_filter in Hin as [Hin _].
  - intros k [v Hk]%elem_of_keys_get. apply Hsub in Hk.
    assert (Hk0 : k ∈ Obj.keys hs0) by (apply elem_of_keys_get; eauto).
    apply getHeaders_key_origin in Hk0 as (k1 & v1 & Hin1 & <-).
    assert (Hk1 : k1 ∈ Obj.keys (Obj.fromEntries lowered)).
    { apply list_elem_of_fmap. by exists (k1, v1). }
    apply keys_fromEntries_elem in Hk1 as [v2 Hin2].
    apply list_elem_of_fmap in Hin2 as ([k0 v0] & [= -> ->] & Hin0).
    eauto.
Qed.

(** X12. The effective deny-list: the configured [redactHeaders]; the default
    list when the options do not have the key; and the empty list when the
    options have the key with the value [undefined], in which case every
    logged header value is a value of the request and nothing is
    redacted. *)
Theorem redactHeaders_effective options :
  match redactHeaders options with
  | Given D => nullish (redactHeaders (spread defaultOptions options)) [] = D
  | Absent =>
      nullish (redactHeaders (spread defaultOptions options)) []
      = ["authorization"; "cookie"; "set-cookie"; "x-api-key"; "x-auth-token"]
  | Undefined =>
      nullish (redactHeaders (spread defaultOptions options)) [] = []
      ∧ ∀ headers k v,
          Obj.get k (HonoUtils.getHeaders headers
                       (nullish (redactHeaders (spread defaultOptions options)) []))
          = Some v →
          ∃ k0, (k0, v) ∈ headers ∧ toLowerCase k0 = k
  end.
Proof.
  unfold spread. simpl. destruct (redactHeaders options); simpl; try done.
  split; [done|]. intros headers k v. rewrite getHeaders_unfold.
  destruct (decide (k = "__proto__")) as [->|Hk].
  - by rewrite header_fold_proto.
  - rewrite header_fold_get by done.
    destruct (Spec.deciding_entry k headers) as [[k0 v0]|] eqn:Hd; [|done].
    apply deciding_entry_Some in Hd as [Hin Hk0]. simpl.
    intros [= <-]. eauto.
Qed.

(** X13. The custom context is merged over the computed one: when the log
    context is built, [getUserContext] has returned, and for every key other
    than [__proto__] the log context has the value that [getUserContext]
    gives it (the last one, if it gives several), also for [method], [url]
    and [path], and the computed value for the keys that [getUserContext]
    does not give. *)
Theorem user_context_overrides config c f p :
  getUserContext config = Given f →
  (∀ g, formatRequest config ≠ Given g) →
  request_payload config c = Return p →
  ∃ base userContext,
    f c = Return userContext
    ∧ request_payload
        (Options (logger config) (level config) (includeHeaders config)
           (redactHeaders config) (includeQueryParams config)
           (slowRequestThreshold config) Absent (formatRequest config)
           (formatResponse config) (formatError config)) c
      = Return base
    ∧ ∀ k, k ≠ "__proto__" →
        Obj.get k p
        = match last (filter (λ kv, kv.1 = k) userContext) with
          | Some kv => Some kv.2
          | None => Obj.get k base
          end.
Proof.
  intros Hu Hf. unfold request_payload, formatted. simpl. rewrite Hu.
  destruct (if flag_truthy (includeQueryParams config) then _ else _)
    as [ctx|e]; [|done].
  destruct (f c) as [userContext|e]; [|done].
  destruct (formatRequest config) as [| |g]; try (by destruct (Hf g));
    intros [= <-]; (eexists _, _; split; [reflexivity|];
                    split; [reflexivity|]);
    intros k Hk; by apply assign_fold_get.
Qed.

(** X14. A custom request formatter replaces the computed log context whole:
    when the handler comes to call it, what it returns is the log context
    and what it throws is thrown. It is not called, and the handler
    throws, when query parameters are wanted and the URL does not parse,
    and when [getUserContext] throws. *)
Theorem formatRequest_replaces config c g :
  formatRequest config = Given g →
  (flag_truthy (includeQueryParams config) = true →
   url_searchParams (url (req c)) = None →
   request_payload config c = Throw invalid_url_error)
  ∧ (flag_truthy (includeQueryParams config) = false
     ∨ is_Some (url_searchParams (url (req c))) →
     Spec.callback_returns (getUserContext config) (λ f, f c) →
     request_payload config c = g (req c) c)
  ∧ (flag_truthy (includeQueryParams config) = false
     ∨ is_Some (url_searchParams (url (req c))) →
     ∀ f e, getUserContext config = Given f → f c = Throw e →
            request_payload config c = Throw e).
Proof.
  intros Hg. unfold request_payload, formatted, HonoUtils.getQueryParams.
  rewrite Hg. split_and!.
  - intros -> ->. done.
  - intros Hurl Huser.
    destruct Hurl as [->|[entries ->]];
      [|destruct (flag_truthy (includeQueryParams config))];
      (destruct (getUserContext config) as [| |f] eqn:Hf; [done|done|];
       destruct (Huser f) as [u ->]; done).
  - intros Hurl f e -> Hcall.
    destruct Hurl as [->|[entries ->]];
      [|destruct (flag_truthy (includeQueryParams config))];
      by rewrite Hcall.
Qed.
End RequestPayload.


Lemma logged_headers_redacted_witness :
  ∃ hs : obj string,
    Obj.get "headers"
      [("method", VStr "GET"); ("url", VStr "http://localhost/users?x=1");
       ("path", VStr "/users");
       ("headers", VRec [("authorization", VStr "[REDACTED]");
                         ("x-test", VStr "value")])]
    = Some (VRec (prod_map id VStr <$> hs))
    ∧ (∀ k v, Obj.get k hs = Some v → k ∈ ["authorization"] →
              v = "[REDACTED]").
Proof.
  destruct (logged_headers_redacted (H := ref_platform)
              (HonoConfig.spread HonoConfig.defaultOptions Sample.with_headers)
              Sample.get_users
              [("method", VStr "GET"); ("url", VStr "http://localhost/users?x=1");
               ("path", VStr "/users");
               ("headers", VRec [("authorization", VStr "[REDACTED]");
                                 ("x-test", VStr "value")])])
    as (hs & Hget & Hleak & _).
  - reflexivity.
  - intros f. discriminate.
  - intros f. discriminate.
  - reflexivity.
  - exists hs. split; [exact Hget|exact Hleak].
Defined.

Lemma user_context_overrides_witness :
  let config :=
    HonoConfig.Options HonoConfig.Absent (HonoConfig.Given "info")
      HonoConfig.Absent HonoConfig.Absent HonoConfig.Absent HonoConfig.Absent
      (HonoConfig.Given
         (λ _, Return [("tenant", VStr "acme"); ("path", VStr "/masked")]))
      HonoConfig.Absent HonoConfig.Absent HonoConfig.Absent in
  ∃ p, Middleware.request_payload (H := ref_platform) config Sample.get_users
       = Return p
       ∧ Obj.get "path" p = Some (VStr "/masked")
       ∧ Obj.get "tenant" p = Some (VStr "acme")
       ∧ Obj.get "method" p = Some (VStr "GET").
Proof.
  intros config. eexists. split; [reflexivity|].
  destruct (user_context_overrides (H := ref_platform) config Sample.get_users
              (λ _, Return [("tenant", VStr "acme"); ("path", VStr "/masked")])
              _ eq_refl (λ g, ltac:(discriminate)) eq_refl)
    as (base & userContext & Hcall & Hbase & Hget).
  injection Hcall as <-. injection Hbase as <-.
  split_and!; rewrite Hget by discriminate; reflexivity.
Defined.

Lemma formatRequest_replaces_witness :
  let config :=
    HonoConfig.Options HonoConfig.Absent (HonoConfig.Given "info")
      HonoConfig.Absent HonoConfig.Absent (HonoConfig.Given true)
      HonoConfig.Absent HonoConfig.Absent
      (HonoConfig.Given (λ r _, Return [("m", VStr (HonoConfig.method r))]))
      HonoConfig.Absent HonoConfig.Absent in
  Middleware.request_payload (H := ref_platform) config Sample.get_users
  = Return [("m", VStr "GET")]
  ∧ Middleware.request_payload (H := ref_platform) config Sample.get_users_bare
    = Throw invalid_url_error.
Proof.
  intros config. split.
  - apply (formatRequest_replaces (H := ref_platform) config Sample.get_users
             _ eq_refl).
    + right. vm_compute. eauto.
    + intros f Hf. discriminate.
  - apply (formatRequest_replaces (H := ref_platform) config
             Sample.get_users_bare _ eq_refl); reflexivity.
Defined.

(** ** More on the handler *)

Section HandlerMore.
Context `{Platform}.
Import HonoConfig Middleware.
Implicit Types (config : HonoLoggerOptions) (h : gmap positive Backend.instance).

Lemma on_success_events config rl startTime endTime c ev :
  ev ∈ (on_success config rl startTime endTime c).1 →
  ∃ lvl d m, ev = Logged rl lvl d m.
Proof.
  unfold on_success. destruct (formatted _ _ _); simpl;
    destruct (PrimFloat.ltb _ _); simpl; rewrite ?elem_of_cons;
    intros Hev; repeat (destruct Hev as [->|Hev]; [eauto|]);
    inversion Hev.
Qed.

(** X15. Every entry of a request is logged through one logger, derived for the
    request: a fresh child of the middleware's logger that binds
    [requestId] to a generated id. That logger is what the downstream
    handler finds in the context, whose request is left as it was; the heap
    gains that one logger and is otherwise unchanged. *)
Theorem handler_request_logger config logger env c next h inst :
  h !! logger = Some inst →
  ∃ r rl,
    handler config logger env c next h = Some r
    ∧ h !! rl = None ∧ rl ≠ logger
    ∧ (∀ ev, ev ∈ trace r →
         ev = Downstream ∨ ∃ lvl d m, ev = Logged rl lvl d m)
    ∧ (∀ s, settled r = Some s →
         s = next (set_logger rl c)
         ∧ var_logger (final_context r) = Some rl
         ∧ req (final_context r) = req c)
    ∧ final_heap r
      = <[rl := Backend.Instance_ (Backend.options inst)
                  (Obj.spread (Backend.bindings inst)
                     [("requestId",
                       VStr (ContextUtils.generateRequestId
                               (now env) (random36 env)))])]> h.
Proof.
  intros Hl.
  destruct (handler_unfold config logger env c next h inst Hl)
    as (rl & Hfresh & Hne & Hrun).
  eexists _, rl. split; [exact Hrun|]. split; [done|]. split; [done|].
  cbv zeta. destruct (request_payload config c) as [p|e]; simpl.
  2:{ split_and!; [|done|done]. intros ev Hin. inversion Hin. }
  set (s := next (set_logger rl c)).
  set (c1 := context_after (set_logger rl c) s).
  assert (Hfailed : ∀ endTime e ev,
            ev ∈ (on_failure config rl (hrtime env) endTime c1 e).1.2 →
            ∃ lvl d m, ev = Logged rl lvl d m).
  { intros endTime e ev.
    destruct (on_failure_events config rl (hrtime env) endTime c1 e)
      as [->|[q ->]].
    - intros Hin. inversion Hin.
    - intros ->%list_elem_of_singleton. eauto. }
  destruct (outcome s) as [u|e] eqn:Ho; simpl.
  - destruct (on_success config rl (hrtime env) (hrtime_after s) c1).2
      as [u'|e] eqn:Hdone; simpl.
    + split_and!; [|by intros s' [= <-]|done].
      intros ev. rewrite !elem_of_cons. intros [->|[->|Hev]]; [eauto..|].
      right. by eapply on_success_events.
    + rewrite on_failure_context.
      destruct (error_status_spec c1) as (_ & Hreq & Hvar).
      split_and!; [|by intros s' [= <-]|done].
      intros ev. rewrite !elem_of_cons, elem_of_app.
      intros [->|[->|[Hev|Hev]]]; [eauto..| |].
      * right. by eapply on_success_events.
      * right. by eapply Hfailed.
  - rewrite on_failure_context.
    destruct (error_status_spec c1) as (_ & Hreq & Hvar).
    split_and!; [|by intros s' [= <-]|done].
    intros ev. rewrite !elem_of_cons. intros [->|[->|Hev]]; [eauto..|].
    right. by eapply Hfailed.
Qed.

(** X16. When the downstream handler returns and the response formatter, if
    one is configured, returns, the handler returns too and leaves the
    response status as the downstream handler set it; its last entry is
    the [info] entry "Request completed", whose payload is
    [{status, duration}] or, with a custom response formatter, what the
    formatter returns. When the response formatter throws, the handler
    ends like a failed request: the status is forced to 500 if it was
    unset or below 400, no "Request completed" entry is logged, and the
    handler throws. *)
Theorem handler_success config logger env c next h inst :
  h !! logger = Some inst →
  ∃ r, handler config logger env c next h = Some r
    ∧ ∀ s u, settled r = Some s → outcome s = Return u →
        ∃ rl,
          var_logger (final_context r) = Some rl
          ∧ ((∀ f, formatResponse config ≠ Given f) →
             returned r = Return tt
             ∧ res_status (final_context r) = status_after s
             ∧ last (trace r)
               = Some (Logged rl "info"
                         [("status", match status_after s with
                                     | Some code =>
                                         VNum (Number_of_bigint code)
                                     | None => VUndefined
                                     end);
                          ("duration",
                           VNum (Spec.elapsed_ms (hrtime env)
                                   (hrtime_after s)))]
                         "Request completed"))
          ∧ (∀ f payload,
               formatResponse config = Given f →
               f (status_after s)
                 (Context_ (req c) (status_after s) (Some rl))
               = Return payload →
               returned r = Return tt
               ∧ res_status (final_context r) = status_after s
               ∧ last (trace r)
                 = Some (Logged rl "info" payload "Request completed"))
          ∧ (∀ f e,
               formatResponse config = Given f →
               f (status_after s)
                 (Context_ (req c) (status_after s) (Some rl))
               = Throw e →
               (∃ e', returned r = Throw e')
               ∧ res_status (final_context r)
                 = (match status_after s with
                    | None => Some 500
                    | Some code => if (code =? 0) || (code <? 400)
                                   then Some 500 else Some code
                    end)
               ∧ Spec.count "info" "Request completed" (trace r) = 0%nat).
Proof.
  intros Hl.
  destruct (handler_unfold config logger env c next h inst Hl)
    as (rl & Hfresh & Hne & Hrun).
  eexists. split; [exact Hrun|]. cbv zeta. intros s u.
  destruct (request_payload config c) as [p|e]; simpl; [|done].
  set (s0 := next (set_logger rl c)).
  set (c1 := context_after (set_logger rl c) s0).
  destruct (outcome s0) as [u'|e] eqn:Ho.
  2:{ simpl. intros [= <-]. congruence. }
  unfold on_success, formatted. rewrite !formatDuration_elapsed_ms.
  change (res_status c1) with (status_after s0).
  change c1 with (Context_ (req c) (status_after s0) (Some rl)).
  destruct (formatResponse config) as [| |f] eqn:Hf.
  - simpl. intros [= <-] _. exists rl. split; [done|].
    unfold status_value. simpl.
    destruct (PrimFloat.ltb _ _); split_and!; done.
  - simpl. intros [= <-] _. exists rl. split; [done|].
    unfold status_value. simpl.
    destruct (PrimFloat.ltb _ _); split_and!; done.
  - destruct (f (status_after s0)
                (Context_ (req c) (status_after s0) (Some rl)))
      as [q|e] eqn:Hcall.
    + simpl. intros [= <-] _. exists rl. split; [done|].
      destruct (PrimFloat.ltb _ _); split_and!; try done.
      * intros Hnone. by destruct (Hnone f).
      * intros f' payload [= <-] Hq.
        assert (q = payload) as -> by congruence. done.
      * intros f' e [= <-]. congruence.
      * intros Hnone. by destruct (Hnone f).
      * intros f' payload [= <-] Hq.
        assert (q = payload) as -> by congruence. done.
      * intros f' e [= <-]. congruence.
    + simpl. intros [= <-] _. exists rl.
      rewrite on_failure_context.
      destruct (error_status_spec
                  (Context_ (req c) (status_after s0) (Some rl)))
        as (Hstatus & _ & Hvar).
      split; [exact Hvar|]. split_and!.
      * intros Hnone. by destruct (Hnone f).
      * intros f' payload [= <-]. congruence.
      * intros f' e' _ _. split; [eauto|]. split; [exact Hstatus|].
        destruct (on_failure_events config rl (hrtime env) (hrtime_catch env)
                    (Context_ (req c) (status_after s0) (Some rl)) e)
          as [->|[q ->]];
          by destruct (PrimFloat.ltb _ _).
Qed.

(** X17. The shape of a run, whatever the callbacks do. The handler logs
    nothing exactly when it throws before the downstream handler is
    called, and the context is then as it was. Otherwise the trace starts
    with the one entry "Incoming request" and the call of the downstream
    handler; after them come at most one slow-request warning, only when
    the downstream handler returned, and at most one terminal entry,
    never both "Request completed" and "Request failed". The handler
    returns exactly when "Request completed" is logged; when the
    downstream handler throws, "Request completed" is not logged. *)
Theorem handler_trace_shape config logger env c next h inst :
  h !! logger = Some inst →
  ∃ r, handler config logger env c next h = Some r
    ∧ (settled r = None ↔ trace r = [])
    ∧ (settled r = None → (∃ e, returned r = Throw e) ∧ final_context r = c)
    ∧ (∀ s, settled r = Some s →
         ∃ rl requestContext after,
           trace r = Logged rl "info" requestContext "Incoming request"
                     :: Downstream :: after
           ∧ Spec.count "info" "Incoming request" after = 0%nat
           ∧ (Spec.count "info" "Request completed" after
              + Spec.count "error" "Request failed" after ≤ 1)%nat
           ∧ (length (filter (λ ev, Spec.has_level "warn" ev = true) after)
              ≤ 1)%nat
           ∧ (length after ≤ 2)%nat
           ∧ (returned r = Return tt
              ↔ Spec.count "info" "Request completed" after = 1%nat)
           ∧ (∀ e, outcome s = Throw e →
                filter (λ ev, Spec.has_level "warn" ev = true) after = []
                ∧ Spec.count "info" "Request completed" after = 0%nat)).
Proof.
  intros Hl.
  destruct (handler_unfold config logger env c next h inst Hl)
    as (rl & Hfresh & Hne & Hrun).
  eexists. split; [exact Hrun|]. cbv zeta.
  destruct (request_payload config c) as [p|e0]; simpl.
  2:{ split_and!; try done. eauto. }
  set (s0 := next (set_logger rl c)).
  set (c1 := context_after (set_logger rl c) s0).
  destruct (outcome s0) as [u'|e'] eqn:Ho.
  - unfold on_success.
    destruct (formatted (formatResponse config) _ _) as [q|e]; simpl.
    + split_and!; try done. intros s [= <-]. eexists rl, _, _.
      split; [reflexivity|].
      destruct (PrimFloat.ltb _ _); simpl; split_and!; try done;
        try lia; intros e0 He0; congruence.
    + split_and!; try done. intros s [= <-]. eexists rl, _, _.
      split; [reflexivity|].
      destruct (on_failure_events config rl (hrtime env) (hrtime_catch env)
                  c1 e) as [->|[q ->]];
        destruct (PrimFloat.ltb _ _); simpl; split_and!; try done;
        try (intros e0 He0; congruence); unfold Spec.count; simpl; lia.
  - simpl. split_and!; try done. intros s [= <-]. eexists rl, _, _.
    split; [reflexivity|].
    destruct (on_failure_events config rl (hrtime env) (hrtime_after s0)
                c1 e') as [->|[q ->]];
      simpl; split_and!; try done; unfold Spec.count; simpl; lia.
Qed.

(** X18. The logger of the middleware. A given logger is used as it is and
    nothing is allocated. Otherwise a logger is created in a fresh location
    from the default logger options with [level] replaced by the configured
    level, or by [undefined] when none is configured, so that the default
    level of the environment does not reach it. *)
Theorem observabilityMiddleware_created LOG_LEVEL options h :
  (∀ l, HonoConfig.logger options = Given l →
        observabilityMiddleware LOG_LEVEL options h
        = (spread defaultOptions options, l, h))
  ∧ ((∀ l, HonoConfig.logger options ≠ Given l) →
     ∃ l inst,
       observabilityMiddleware LOG_LEVEL options h
       = (spread defaultOptions options, l, <[l := inst]> h)
       ∧ h !! l = None
       ∧ Backend.bindings inst = []
       ∧ Obj.get "level" (Backend.options inst)
         = Some (match HonoConfig.level options with
                 | Given lvl => VStr lvl
                 | _ => VUndefined
                 end)
       ∧ ∀ k, k ≠ "level" →
           Obj.get k (Backend.options inst)
           = Obj.get k (Defaults.defaultOptions LOG_LEVEL)).
Proof.
  unfold observabilityMiddleware. split.
  - intros l ->. done.
  - intros Hnone.
    assert (Hfresh : h !! fresh (dom h) = None)
      by apply not_elem_of_dom, is_fresh.
    destruct (HonoConfig.logger options) as [| |l0]; [| |by destruct (Hnone l0)].
    + eexists _, _. split; [reflexivity|].
      split; [done|]. split; [done|]. split.
      { cbn [Backend.options]. unfold Logger.mergedOptions.
        rewrite get_spread. simpl. by destruct (HonoConfig.level options). }
      intros k Hk. cbn [Backend.options]. unfold Logger.mergedOptions.
      rewrite get_spread, filter_cons, filter_nil. simpl.
      by destruct (decide ("level" = k)); [congruence|].
    + eexists _, _. split; [reflexivity|].
      split; [done|]. split; [done|]. split.
      { cbn [Backend.options]. unfold Logger.mergedOptions.
        rewrite get_spread. simpl. by destruct (HonoConfig.level options). }
      intros k Hk. cbn [Backend.options]. unfold Logger.mergedOptions.
      rewrite get_spread, filter_cons, filter_nil. simpl.
      by destruct (decide ("level" = k)); [congruence|].
Qed.
End HandlerMore.

Lemma handler_request_logger_witness :
  ∃ r rl,
    Sample.serve Sample.at_info Sample.get_users Sample.ok_5ms = Some r
    ∧ (∀ ev, ev ∈ Middleware.trace r →
         ev = Middleware.Downstream
         ∨ ∃ lvl d m, ev = Middleware.Logged rl lvl d m)
    ∧ (∀ s, Middleware.settled r = Some s →
         HonoConfig.var_logger (Middleware.final_context r) = Some rl).
Proof.
  unfold Sample.serve.
  edestruct (handler_request_logger (H := ref_platform)
               (Sample.middleware Sample.at_info).1.1
               (Sample.middleware Sample.at_info).1.2
               Sample.env Sample.get_users Sample.ok_5ms
               (Sample.middleware Sample.at_info).2)
    as (r & rl & Hr & _ & _ & Hev & Hs & _).
  { vm_compute. reflexivity. }
  exists r, rl. split; [exact Hr|]. split; [exact Hev|].
  intros s Hsettled. by destruct (Hs s Hsettled) as (_ & Hvar & _).
Defined.

Lemma handler_success_witness :
  ∃ r, Sample.serve Sample.at_info Sample.get_users Sample.ok_5ms = Some r
       ∧ Middleware.returned r = Return tt
       ∧ HonoConfig.res_status (Middleware.final_context r) = Some 200
       ∧ ∃ rl, last (Middleware.trace r)
               = Some (Middleware.Logged rl "info"
                         [("status", VNum 200); ("duration", VNum 5)]
                         "Request completed").
Proof.
  unfold Sample.serve.
  edestruct (handler_success (H := ref_platform)
               (Sample.middleware Sample.at_info).1.1
               (Sample.middleware Sample.at_info).1.2
               Sample.env Sample.get_users Sample.ok_5ms
               (Sample.middleware Sample.at_info).2)
    as (r & Hr & Hok).
  { vm_compute. reflexivity. }
  exists r. split; [exact Hr|].
  vm_compute in Hr. injection Hr as <-.
  destruct (Hok (Sample.ok_5ms Sample.get_users) tt eq_refl eq_refl)
    as (rl & _ & Hdefault & _).
  destruct Hdefault as (Hret & Hstatus & Hlast); [intros f; discriminate|].
  split; [exact Hret|]. split; [exact Hstatus|].
  exists rl. exact Hlast.
Defined.

Lemma handler_trace_shape_witness :
  ∃ r, Sample.serve Sample.with_failing_response_formatter Sample.get_users
         Sample.ok_10ms = Some r
       ∧ ∃ rl requestContext after,
           Middleware.trace r
           = Middleware.Logged rl "info" requestContext "Incoming request"
             :: Middleware.Downstream :: after
           ∧ (Spec.count "info" "Request completed" after
              + Spec.count "error" "Request failed" after ≤ 1)%nat
           ∧ (length after ≤ 2)%nat.
Proof.
  unfold Sample.serve.
  edestruct (handler_trace_shape (H := ref_platform)
               (Sample.middleware Sample.with_failing_response_formatter).1.1
               (Sample.middleware Sample.with_failing_response_formatter).1.2
               Sample.env Sample.get_users Sample.ok_10ms
               (Sample.middleware Sample.with_failing_response_formatter).2)
    as (r & Hr & _ & _ & Hshape).
  { vm_compute. reflexivity. }
  exists r. split; [exact Hr|].
  vm_compute in Hr. injection Hr as <-.
  destruct (Hshape (Sample.ok_10ms Sample.get_users) eq_refl)
    as (rl & requestContext & after & Htrace & _ & Hterminal & _ & Hlen & _).
  exists rl, requestContext, after.
  split; [exact Htrace|]. split; [exact Hterminal|exact Hlen].
Defined.

Lemma observabilityMiddleware_created_witness :
  ∃ l inst,
    Middleware.observabilityMiddleware (Some "debug") HonoConfig.no_options ∅
    = (HonoConfig.spread HonoConfig.defaultOptions HonoConfig.no_options,
       l, <[l := inst]> ∅)
    ∧ Obj.get "level" (Backend.options inst) = Some VUndefined
    ∧ Obj.get "level" (Defaults.defaultOptions (Some "debug"))
      = Some (VStr "debug").
Proof.
  destruct (proj2 (observabilityMiddleware_created (Some "debug")
                     HonoConfig.no_options ∅))
    as (l & inst & Hm & _ & _ & Hlevel & _).
  - intros l. discriminate.
  - exists l, inst. split; [exact Hm|]. split; [exact Hlevel|reflexivity].
Defined.

Lemma redactHeaders_effective_witness :
  let options :=
    HonoConfig.Options HonoConfig.Absent HonoConfig.Absent
      (HonoConfig.Given (HonoConfig.IncludeFlag true)) HonoConfig.Undefined
      HonoConfig.Absent HonoConfig.Absent HonoConfig.Absent HonoConfig.Absent
      HonoConfig.Absent HonoConfig.Absent in
  HonoConfig.nullish
    (HonoConfig.redactHeaders
       (HonoConfig.spread HonoConfig.defaultOptions options)) [] = []
  ∧ HonoUtils.getHeaders (H := ref_platform)
      [("Authorization", "Bearer x")]
      (HonoConfig.nullish
         (HonoConfig.redactHeaders
            (HonoConfig.spread HonoConfig.defaultOptions options)) [])
    = [("authorization", "Bearer x")].
Proof.
  intros options. split; [|reflexivity].
  exact (proj1 (redactHeaders_effective (H := ref_platform) options)).
Defined.

(** ** The two lower-casings of the header path *)

Section LowerCasedTwice.
Context `{Platform}.
Import HonoUtils.
Implicit Types (headers : obj string) (D : list string) (k : string).

Lemma NoDup_keys_fromEntries {V} (l : obj V) :
  NoDup (Obj.keys (Obj.fromEntries l)).
Proof.
  unfold Obj.fromEntries, Obj.spread.
  assert (Hgen : ∀ acc : obj V, NoDup (Obj.keys acc) →
            NoDup (Obj.keys (foldl (λ acc kv, Obj.define kv.1 kv.2 acc) acc l))).
  { induction l as [|kv l IH]; intros acc Hnd; [done|].
    simpl. by apply IH, NoDup_keys_define. }
  apply Hgen, NoDup_nil_2.
Qed.

Lemma filter_lowered k headers :
  filter (λ kv : string * string, kv.1 = k)
    ((λ kv, (toLowerCase kv.1, kv.2)) <$> headers)
  = (λ kv, (toLowerCase kv.1, kv.2))
      <$> filter (λ kv : string * string, toLowerCase kv.1 = k) headers.
Proof.
  induction headers as [|[k0 v0] headers IH]; [done|].
  rewrite fmap_cons, !filter_cons. simpl.
  destruct (decide (toLowerCase k0 = k)); by rewrite IH.
Qed.

Lemma get_lowered k headers :
  Obj.get k (Obj.fromEntries ((λ kv, (toLowerCase kv.1, kv.2)) <$> headers))
  = snd <$> Spec.deciding_entry k headers.
Proof.
  unfold Obj.fromEntries, Spec.deciding_entry.
  rewrite get_spread, filter_lowered, fmap_last. simpl.
  by destruct (last _) as [[k0 v0]|].
Qed.

Lemma filter_on_elements {A} (P Q : A → Prop)
    `{∀ x, Decision (P x)} `{∀ x, Decision (Q x)} (l : list A) :
  (∀ x, x ∈ l → P x ↔ Q x) → filter P l = filter Q l.
Proof.
  induction l as [|x l IH]; intros Hl; [done|].
  rewrite !filter_cons.
  rewrite IH by (intros y Hy; apply Hl; by right).
  destruct (decide (P x)) as [HP|HP], (decide (Q x)) as [HQ|HQ]; try done.
  - destruct HQ. apply Hl; [left|done].
  - destruct HP. apply Hl; [left|done].
Qed.

(** X19. The handler lower-cases the header names before it calls [getHeaders],
    which lower-cases them again. When lower-casing is idempotent the first
    pass changes nothing: [getHeaders] gives every key the same value on
    the lower-cased headers as on the headers themselves. *)
Theorem getHeaders_lowered_first headers D :
  (∀ s, toLowerCase (toLowerCase s) = toLowerCase s) →
  ∀ k, Obj.get k (getHeaders
                    (Obj.fromEntries
                       ((λ kv, (toLowerCase kv.1, kv.2)) <$> headers)) D)
       = Obj.get k (getHeaders headers D).
Proof.
  intros Hidem k. rewrite !getHeaders_unfold.
  destruct (decide (k = "__proto__")) as [->|Hk].
  { by rewrite !header_fold_proto. }
  rewrite !header_fold_get by done.
  set (L := Obj.fromEntries ((λ kv, (toLowerCase kv.1, kv.2)) <$> headers)).
  assert (Hsame : snd <$> Spec.deciding_entry k L
                  = snd <$> Spec.deciding_entry k headers).
  { transitivity (Obj.get k L); [|apply get_lowered].
    rewrite <- (last_filter_NoDup k L) by apply NoDup_keys_fromEntries.
    unfold Spec.deciding_entry. f_equal. f_equal.
    apply filter_on_elements. intros [k1 v1] Hin. simpl.
    assert (Hk1 : Obj.get k1 L = Some v1)
      by (apply elem_of_get; [apply NoDup_keys_fromEntries|done]).
    unfold L in Hk1. rewrite get_lowered in Hk1.
    destruct (Spec.deciding_entry k1 headers) as [[k0 v0]|] eqn:Hd; [|done].
    apply deciding_entry_Some in Hd as [_ <-]. simpl. by rewrite Hidem. }
  destruct (Spec.deciding_entry k L) as [[k1 v1]|],
    (Spec.deciding_entry k headers) as [[k0 v0]|]; simpl in *;
    by simplify_eq.
Qed.
End LowerCasedTwice.

Lemma getHeaders_lowered_first_witness :
  Obj.get "cookie"
    (HonoUtils.getHeaders (H := ref_platform)
       (Obj.fromEntries
          ((λ kv, (Ref.lower_string kv.1, kv.2))
             <$> [("Cookie", "a=1"); ("cookie", "b=2"); ("X-Test", "v")]))
       ["cookie"])
  = Obj.get "cookie"
      (HonoUtils.getHeaders (H := ref_platform)
         [("Cookie", "a=1"); ("cookie", "b=2"); ("X-Test", "v")] ["cookie"])
  ∧ Obj.get "x-test"
      (HonoUtils.getHeaders (H := ref_platform)
         (Obj.fromEntries
            ((λ kv, (Ref.lower_string kv.1, kv.2))
               <$> [("Cookie", "a=1"); ("cookie", "b=2"); ("X-Test", "v")]))
         ["cookie"])
    = Obj.get "x-test"
        (HonoUtils.getHeaders (H := ref_platform)
           [("Cookie", "a=1"); ("cookie", "b=2"); ("X-Test", "v")] ["cookie"]).
Proof.
  split; apply (getHeaders_lowered_first (H := ref_platform));
    apply lower_string_idempotent.
Defined.
